(** * Kanban task store: the Todo backend (NestJS + zod + Prisma)

    A shallow embedding of
      - backend/src/todo/dto/create-todo.dto.ts   (TaskStatus, createTodoSchema)
      - backend/src/common/pipes/zod-validation.pipe.ts (ZodValidationPipe)
      - backend/src/todo/todo.service.ts          (TodoService)
      - backend/src/todo/todo.controller.ts       (TodoController)
      - backend/src/common/interceptors/transform.interceptor.ts
      - backend/prisma/migrations/.../migration.sql (enum order, column defaults)

    The service is a thin layer over the ORM, so the table it talks to is part
    of the model: a list of rows together with the value of the autoincrement
    sequence of the [id] column.  Every operation is a function from the
    table to a result and the table afterwards.

    Integers are unbounded in the model and the limits the code puts on
    them are written out: zod's [.int()] takes safe integers only, and the
    INTEGER columns [id] and [position] take 32-bit integers only.  The
    sequence itself is taken as inexhaustible, text as storable, numbers as
    finite and the database as always reachable; the theorems that promise
    a new row say so in their hypotheses.  The clock ([now()],
    [new Date()]) is an explicit argument. *)

From stdpp Require Import base option list gmap strings sorting.
From Stdlib Require Import ZArith Lia.

Local Open Scope Z_scope.

(** ** Request values *)

(** A finite JavaScript number as far as the code looks at it:
    integer-valued or not ([Number.isInteger]).  Of a number that is not an
    integer the model keeps the integer that the ORM client writes for it
    when it is handed one as an Int argument (2 for 2.5). *)
Inductive num :=
  | Int (n : Z)
  | NonInt (written : Z).

(** [Number.isSafeInteger]. *)
Definition safe_integer (n : Z) : Prop :=
  -9007199254740991 ≤ n ≤ 9007199254740991.

#[global] Instance safe_integer_dec n : Decision (safe_integer n).
Proof. unfold safe_integer. apply _. Defined.

(** What a TEXT column holds: any string without the character NUL. *)
Fixpoint storable (s : string) : Prop :=
  match s with
  | EmptyString => True
  | String c s' => c ≠ Ascii.zero ∧ storable s'
  end.

(** What an INTEGER column holds. *)
Definition int4 (n : Z) : Prop := -2147483648 ≤ n ≤ 2147483647.

#[global] Instance int4_dec n : Decision (int4 n).
Proof. unfold int4. apply _. Defined.

(** What a parsed JSON body, or a field read from it, can be at run time.
    TypeScript annotations are erased, so this is the type of everything
    that comes from a request. *)
#[local] Unset Elimination Schemes.
Inductive value :=
  | VUndefined
  | VNull
  | VBool (b : bool)
  | VNum (x : num)
  | VStr (s : string)
  | VArr (items : list value)
  | VObj (fields : gmap string value).
#[local] Set Elimination Schemes.

(** [obj.key]: a missing key reads as [undefined]. *)
Definition get (key : string) (fields : gmap string value) : value :=
  default VUndefined (fields !! key).

(** ** The TaskStatus enum

    [CREATE TYPE "TaskStatus" AS ENUM ('TODO', 'IN_PROGRESS', 'DONE')] and
    [z.enum(['TODO', 'IN_PROGRESS', 'DONE'])]. *)
Inductive TaskStatus := TODO | IN_PROGRESS | DONE.

#[global] Instance TaskStatus_eq_dec : EqDecision TaskStatus.
Proof. solve_decision. Defined.

Definition TaskStatus_label (s : TaskStatus) : string :=
  match s with
  | TODO => "TODO"
  | IN_PROGRESS => "IN_PROGRESS"
  | DONE => "DONE"
  end.

Definition TaskStatus_values : list TaskStatus := [TODO; IN_PROGRESS; DONE].

(** The member named by a string, if any. *)
Definition TaskStatus_of_string (s : string) : option TaskStatus :=
  list_find (λ m, TaskStatus_label m = s) TaskStatus_values ≫= λ '(_, m), Some m.

(** An enum column sorts by the position of the member in the CREATE TYPE
    declaration. *)
Definition TaskStatus_rank (s : TaskStatus) : Z :=
  match s with
  | TODO => 0
  | IN_PROGRESS => 1
  | DONE => 2
  end.

(** ** Rows and inputs *)

(** [model Todo] of the schema; the table [Todo] after the migration. *)
Module Todo.
Record t := mk {
  id : Z;
  title : string;
  description : option string;
  status : TaskStatus;
  position : Z;
  createdAt : Z;
  updatedAt : Z;
}.
End Todo.

(** [class CreateTodoDto]: [title] is required, the rest is optional. *)
Module CreateTodoDto.
Record t := mk {
  title : string;
  description : option string;
  status : option TaskStatus;
  position : option Z;
}.
End CreateTodoDto.

(** ** Failures *)

(** What the code throws.  [BadRequestException] is raised by
    [ZodValidationPipe.transform]; [TypeError] by reading a property of
    [undefined] or [null]; the others come out of the ORM client:
    [PrismaClientValidationError] when an argument has the wrong shape or is
    not a member of the enum, [PrismaRecordNotFound] (code P2025) when
    [update] or [delete] matches no row, [PrismaValueOutOfRange] (code
    P2020) when an integer does not fit its INTEGER column,
    [PrismaUnknownRequestError] when the database refuses the statement for
    another reason (a division by zero). *)
Inductive exception :=
  | BadRequestException
  | TypeError
  | PrismaClientValidationError
  | PrismaRecordNotFound
  | PrismaValueOutOfRange
  | PrismaUnknownRequestError.

(** The three kinds of failure a caller distinguishes, by cause: the
    request is malformed or out of range, the id names no task, the store
    failed; and the crash of a handler, which is none of them.  Both
    validation exceptions and the range error are failures of the first
    kind.  How the framework turns an exception into an HTTP status is not
    part of the model. *)
Inductive ErrorKind := ValidationError | NotFoundError | StorageError | Crash.

Definition classify (e : exception) : ErrorKind :=
  match e with
  | BadRequestException => ValidationError
  | TypeError => Crash
  | PrismaClientValidationError => ValidationError
  | PrismaRecordNotFound => NotFoundError
  | PrismaValueOutOfRange => ValidationError
  | PrismaUnknownRequestError => StorageError
  end.

Inductive result (A : Type) :=
  | Return (a : A)
  | Throw (e : exception).
Arguments Return {A} a.
Arguments Throw {A} e.

(** ** zod *)

Module z.
(** A schema parses a value; [None] is a [ZodError]. *)
Definition schema (A : Type) := value → option A.

Definition string : schema String.string :=
  λ v, match v with VStr s => Some s | _ => None end.

Definition min (n : nat) (inner : schema String.string) : schema String.string :=
  λ v, s ← inner v; if decide (n ≤ String.length s)%nat then Some s else None.

Definition number : schema num :=
  λ v, match v with VNum x => Some x | _ => None end.

(** [.int()]: an integer, and a safe one. *)
Definition int (inner : schema num) : schema Z :=
  λ v, x ← inner v;
       match x with
       | Int n => if decide (safe_integer n) then Some n else None
       | NonInt _ => None
       end.

Definition enum : schema TaskStatus :=
  λ v, match v with VStr s => TaskStatus_of_string s | _ => None end.

Definition optional {A} (inner : schema A) : schema (option A) :=
  λ v, match v with VUndefined => Some None | _ => Some <$> inner v end.

Definition default {A} (d : A) (inner : schema (option A)) : schema A :=
  λ v, match v with VUndefined => Some d | _ => option.default d <$> inner v end.
End z.

Definition createTodoSchema_keys : gset string :=
  {[ "title"; "description"; "status"; "position" ]}.

(** [z.object({...}).strict()]: the value is an object, every field parses
    with its schema, and no other key is present.  The parsed [position] is
    never absent, because of [.default(0)]. *)
Definition createTodoSchema : z.schema CreateTodoDto.t :=
  λ v, match v with
       | VObj o =>
           title ← z.min 1 z.string (get "title" o);
           description ← z.optional z.string (get "description" o);
           status ← z.optional z.enum (get "status" o);
           position ← z.default 0 (z.optional (z.int z.number)) (get "position" o);
           if decide (dom o ⊆ createTodoSchema_keys)
           then Some (CreateTodoDto.mk title description status (Some position))
           else None
       | _ => None
       end.

(** [ZodValidationPipe.transform]: the parsed value, or a
    [BadRequestException] in place of whatever [parse] threw. *)
Module ZodValidationPipe.
Definition transform {A} (schema : z.schema A) (v : value) : result A :=
  match schema v with
  | Some parseValue => Return parseValue
  | None => Throw BadRequestException
  end.
End ZodValidationPipe.

(** ** The table behind [this.prisma.todo] *)

(** The rows of table [Todo] and the next value of the sequence that feeds
    [id Int @id @default(autoincrement())]. *)
Record Table := mkTable {
  rows : list Todo.t;
  id_seq : Z;
}.

(** A request handler runs against the table and leaves a table behind. *)
Definition handler (A : Type) := Table → result A * Table.

Definition fail {A} (e : exception) : handler A := λ tb, (Throw e, tb).

(** The table of a fresh database. *)
Definition empty_table : Table := mkTable [] 1.

(** [ORDER BY status ASC, position ASC]: the enum column first, in its
    declaration order, then the integer column. *)
Definition orderBy_status_position (a b : Todo.t) : Prop :=
  TaskStatus_rank (Todo.status a) < TaskStatus_rank (Todo.status b) ∨
  (Todo.status a = Todo.status b ∧ Todo.position a ≤ Todo.position b).

#[global] Instance orderBy_status_position_dec a b :
  Decision (orderBy_status_position a b).
Proof. unfold orderBy_status_position. apply _. Defined.

Module prisma.
(** A member of the enum given by its label. *)
Definition enum_scalar (v : value) : option TaskStatus :=
  match v with
  | VStr s => TaskStatus_of_string s
  | _ => None
  end.

(** How the client reads an argument for the enum column: [undefined]
    means that the field is not part of the write ([Some None]); a label
    sets the member, and so does the operation object [{ set: label }];
    anything else is refused ([None]). *)
Definition enum_arg (v : value) : option (option TaskStatus) :=
  match v with
  | VUndefined => Some None
  | VObj o =>
      if decide (dom o = {[ "set" ]}) then Some <$> enum_scalar (get "set" o)
      else None
  | _ => Some <$> enum_scalar v
  end.

(** A write to an Int column: a value, or one of the atomic operations. *)
Inductive int_write :=
  | set (n : Z)
  | increment (n : Z)
  | decrement (n : Z)
  | multiply (n : Z)
  | divide (n : Z).

Definition operand (w : int_write) : Z :=
  match w with
  | set n | increment n | decrement n | multiply n | divide n => n
  end.

(** A number given for an Int: an integer as it is, another number as the
    integer the client makes of it. *)
Definition int_scalar (v : value) : option Z :=
  match v with
  | VNum (Int n) => Some n
  | VNum (NonInt written) => Some written
  | _ => None
  end.

(** How the client reads an argument for the Int column: [undefined] is
    no write, a number sets the value, an object with exactly one of the
    five operations is that operation; anything else is refused. *)
Definition int_arg (v : value) : option (option int_write) :=
  match v with
  | VUndefined => Some None
  | VObj o =>
      if decide (dom o = {[ "set" ]}) then (Some ∘ set) <$> int_scalar (get "set" o)
      else if decide (dom o = {[ "increment" ]})
        then (Some ∘ increment) <$> int_scalar (get "increment" o)
      else if decide (dom o = {[ "decrement" ]})
        then (Some ∘ decrement) <$> int_scalar (get "decrement" o)
      else if decide (dom o = {[ "multiply" ]})
        then (Some ∘ multiply) <$> int_scalar (get "multiply" o)
      else if decide (dom o = {[ "divide" ]})
        then (Some ∘ divide) <$> int_scalar (get "divide" o)
      else None
  | _ => (Some ∘ set) <$> int_scalar v
  end.

(** The integer given with a write, if any, is a 32-bit integer. *)
Definition operand_fits (w : option int_write) : Prop :=
  match w with
  | None => True
  | Some w => int4 (operand w)
  end.

#[global] Instance operand_fits_dec w : Decision (operand_fits w).
Proof. destruct w; simpl; apply _. Defined.

(** The value must fit the column, or the statement fails with P2020. *)
Definition fit (n : Z) : result Z :=
  if decide (int4 n) then Return n else Throw PrismaValueOutOfRange.

(** The value an operation leaves in the column; integer division is that
    of the database, towards zero. *)
Definition new_value (w : int_write) (old : Z) : result Z :=
  match w with
  | set n => fit n
  | increment n => fit (old + n)
  | decrement n => fit (old - n)
  | multiply n => fit (old * n)
  | divide n =>
      if decide (n = 0) then Throw PrismaUnknownRequestError
      else fit (Z.quot old n)
  end.

(** What a lookup by an id that matches no row fails with: P2025, or
    P2020 when the id is no 32-bit integer (no row can carry such an id).  *)
Definition no_such_row (id : Z) : exception :=
  if decide (int4 id) then PrismaRecordNotFound else PrismaValueOutOfRange.

(** [todo.create({ data })].  The id comes from the sequence; an absent
    [status] or [position] takes the column default of the migration
    ([DEFAULT 'TODO'], [DEFAULT 0]); [createdAt] is [now()] and
    [updatedAt] is set by the client to the same instant.  A position that
    does not fit the column fails the insert; no id is drawn then. *)
Definition create (now : Z) (data : CreateTodoDto.t) : handler Todo.t :=
  λ tb,
    let row :=
      Todo.mk (id_seq tb)
              (CreateTodoDto.title data)
              (CreateTodoDto.description data)
              (default TODO (CreateTodoDto.status data))
              (default 0 (CreateTodoDto.position data))
              now now in
    if decide (int4 (default 0 (CreateTodoDto.position data)))
    then (Return row, mkTable (rows tb ++ [row]) (id_seq tb + 1))
    else (Throw PrismaValueOutOfRange, tb).

(** [todo.findMany({ orderBy: [{ status: 'asc' }, { position: 'asc' }] })]. *)
Definition findMany : handler (list Todo.t) :=
  λ tb, (Return (merge_sort orderBy_status_position (rows tb)), tb).

(** The write of [update]: the given fields and [@updatedAt]; with no
    field given the row stays as it is. *)
Definition set_fields (now : Z) (status : option TaskStatus) (position : option Z)
    (row : Todo.t) : Todo.t :=
  match status, position with
  | None, None => row
  | _, _ =>
      Todo.mk (Todo.id row) (Todo.title row) (Todo.description row)
              (default (Todo.status row) status)
              (default (Todo.position row) position)
              (Todo.createdAt row) now
  end.

(** The row as [update] rewrites it, or the failure of the operation. *)
Definition rewrite_row (now : Z) (status : option TaskStatus)
    (position : option int_write) (row : Todo.t) : result Todo.t :=
  match position with
  | None => Return (set_fields now status None row)
  | Some w =>
      match new_value w (Todo.position row) with
      | Return p => Return (set_fields now status (Some p) row)
      | Throw e => Throw e
      end
  end.

Definition has_id (i : Z) (row : Todo.t) : Prop := Todo.id row = i.

#[global] Instance has_id_dec i row : Decision (has_id i row).
Proof. unfold has_id. apply _. Defined.

(** [todo.update({ where: { id }, data: { status, position } })]: the
    arguments are checked first, for their shape and then for the range
    of the integer given; then the row is looked up and rewritten.  A
    failure at any step writes nothing. *)
Definition update (now : Z) (id : Z) (status position : value) : handler Todo.t :=
  λ tb,
    match enum_arg status, int_arg position with
    | Some st, Some w =>
        if decide (operand_fits w) then
          match list_find (has_id id) (rows tb) with
          | Some (_, row) =>
              match rewrite_row now st w row with
              | Return row' =>
                  (Return row',
                   mkTable ((λ r, if decide (has_id id r) then row' else r) <$> rows tb)
                           (id_seq tb))
              | Throw e => (Throw e, tb)
              end
          | None => (Throw (no_such_row id), tb)
          end
        else (Throw PrismaValueOutOfRange, tb)
    | _, _ => (Throw PrismaClientValidationError, tb)
    end.

(** [todo.delete({ where: { id } })]: the row is removed for good and
    handed back; no matching row is a failure. *)
Definition delete (id : Z) : handler Todo.t :=
  λ tb,
    match list_find (has_id id) (rows tb) with
    | Some (_, row) =>
        (Return row, mkTable (filter (λ r, ¬ has_id id r) (rows tb)) (id_seq tb))
    | None => (Throw (no_such_row id), tb)
    end.
End prisma.

(** ** TodoService *)

Module TodoService.
Definition create (now : Z) (data : CreateTodoDto.t) : handler Todo.t :=
  prisma.create now
    (CreateTodoDto.mk (CreateTodoDto.title data)
                      (CreateTodoDto.description data)
                      (CreateTodoDto.status data)
                      (CreateTodoDto.position data)).

Definition findAll : handler (list Todo.t) := prisma.findMany.

(** The parameters are annotated [number], a union of the three string
    literals and [number]; nothing checks the last two at run time, so
    they are whatever the caller passes. *)
Definition updateStatus (now : Z) (id : Z) (status position : value)
  : handler Todo.t :=
  prisma.update now id status position.

Definition remove (id : Z) : handler Todo.t := prisma.delete id.
End TodoService.

(** ** TodoController *)

(** [v.key] on a request body: only an object has own properties here. *)
Definition prop (key : string) (v : value) : value :=
  match v with
  | VObj o => get key o
  | _ => VUndefined
  end.

Module TodoController.
(** [@UsePipes(new ZodValidationPipe(createTodoSchema))]: the body goes
    through the pipe before the method runs. *)
Definition create (now : Z) (body : value) : handler Todo.t :=
  match ZodValidationPipe.transform createTodoSchema body with
  | Return createTodoDto => TodoService.create now createTodoDto
  | Throw e => fail e
  end.

Definition findAll : handler (list Todo.t) := TodoService.findAll.

(** No pipe on this route: the two fields of the body go to the service
    as they are, and reading them off a body that is [undefined] or [null]
    is a TypeError.  [id] is the numeric value [+id] of the path
    parameter. *)
Definition moveTask (now : Z) (id : Z) (updateData : value) : handler Todo.t :=
  match updateData with
  | VUndefined | VNull => fail TypeError
  | _ =>
      TodoService.updateStatus now id
        (prop "status" updateData) (prop "position" updateData)
  end.

Definition remove (id : Z) : handler Todo.t := TodoService.remove id.
End TodoController.

(** ** TransformInterceptor *)

(** The object built for each value the route handler emits. *)
Record Response (T : Type) := mkResponse {
  success : bool;
  data : T;
  timestamp : string;
}.
Arguments mkResponse {T} _ _ _.
Arguments success {T} _.
Arguments data {T} _.
Arguments timestamp {T} _.

(** A finished observable: the values it emitted, then completion ([None])
    or an error. *)
Record Observable (T : Type) := mkObservable {
  emitted : list T;
  failure : option exception;
}.
Arguments mkObservable {T} _ _.
Arguments emitted {T} _.
Arguments failure {T} _.

(** [next.handle()] for a route handler that returned or threw: one value
    and completion, or no value and the error. *)
Definition handle {T} (r : result T) : Observable T :=
  match r with
  | Return a => mkObservable [a] None
  | Throw e => mkObservable [] (Some e)
  end.

Module rx.
(** [source.pipe(map(f))]: [f] is applied to each emitted value (here with
    its index, which the projection uses for the clock); an error
    notification passes through untouched. *)
Definition map {A B} (f : nat → A → B) (source : Observable A) : Observable B :=
  mkObservable (imap f (emitted source)) (failure source).
End rx.

Module TransformInterceptor.
(** [clock k] is [new Date().toISOString()] at the moment of the [k]-th
    emission. *)
Definition intercept {T} (clock : nat → string) (next_handle : Observable T)
  : Observable (Response T) :=
  rx.map (λ k data, mkResponse true data (clock k)) next_handle.
End TransformInterceptor.

(** ** Requests in sequence *)

Inductive request :=
  | POST_todo (body : value)
  | GET_todo
  | PATCH_todo_move (id : Z) (body : value)
  | DELETE_todo (id : Z).

Inductive reply :=
  | One (row : Todo.t)
  | Many (found : list Todo.t).

Definition lift {A} (f : A → reply) (h : handler A) : handler reply :=
  λ tb, match h tb with
        | (Return a, tb') => (Return (f a), tb')
        | (Throw e, tb') => (Throw e, tb')
        end.

(** Routing of one request, received at instant [now]. *)
Definition dispatch (now : Z) (req : request) : handler reply :=
  match req with
  | POST_todo body => lift One (TodoController.create now body)
  | GET_todo => lift Many TodoController.findAll
  | PATCH_todo_move id body => lift One (TodoController.moveTask now id body)
  | DELETE_todo id => lift One (TodoController.remove id)
  end.

(** The requests are served one after the other; the replies are collected
    in order. *)
Fixpoint serve (reqs : list (Z * request)) (tb : Table) : list (result reply) * Table :=
  match reqs with
  | [] => ([], tb)
  | (now, req) :: reqs' =>
      let '(r, tb') := dispatch now req tb in
      let '(rs, tb'') := serve reqs' tb' in
      (r :: rs, tb'')
  end.

(** Values of the right type, as a well-behaved client sends them. *)
Definition of_status (st : TaskStatus) : value := VStr (TaskStatus_label st).
Definition of_int (n : Z) : value := VNum (Int n).

(** What the primary key and the sequence guarantee: no two rows share an
    id, and every id in the table was drawn from the sequence. *)
Definition wf (tb : Table) : Prop :=
  NoDup (Todo.id <$> rows tb) ∧ Forall (λ r, Todo.id r < id_seq tb) (rows tb).

(** The ids handed out by the successful POSTs among some replies. *)
Fixpoint created_ids (reqs : list (Z * request)) (rs : list (result reply)) : list Z :=
  match reqs, rs with
  | (_, POST_todo _) :: reqs', Return (One row) :: rs' =>
      Todo.id row :: created_ids reqs' rs'
  | _ :: reqs', _ :: rs' => created_ids reqs' rs'
  | _, _ => []
  end.

(** ** A small board *)

Definition task_A : Todo.t := Todo.mk 1 "Write spec" None TODO 0 10 10.
Definition task_B : Todo.t := Todo.mk 2 "Review" None TODO 1 20 20.
Definition board : Table := mkTable [task_A; task_B] 3.

Definition body_A : value := VObj {[ "title" := VStr "Write spec" ]}.
Definition body_B : value :=
  VObj {[ "title" := VStr "Review"; "status" := VStr "TODO"; "position" := VNum (Int 1) ]}.

(** Create A, create B, list, move A to IN_PROGRESS, list, delete B, list,
    delete B again. *)
Definition scenario : list (Z * request) :=
  [ (10, POST_todo body_A);
    (20, POST_todo body_B);
    (25, GET_todo);
    (40, PATCH_todo_move 1 (VObj {[ "status" := VStr "IN_PROGRESS"; "position" := VNum (Int 0) ]}));
    (45, GET_todo);
    (50, DELETE_todo 2);
    (55, GET_todo);
    (60, DELETE_todo 2) ].

(** ** bootstrap *)

(** [app.useGlobalInterceptors(new TransformInterceptor())]: whichever route
    serves a request, what its handler returned or threw goes through the
    interceptor on the way out. *)
Definition respond (clock : nat → string) (now : Z) (req : request)
  : Table → Observable (Response reply) * Table :=
  λ tb, let '(r, tb') := dispatch now req tb in
        (TransformInterceptor.intercept clock (handle r), tb').

(** ** The frontend client *)

Module api.
Inductive verb := get | post.

(** An axios call: the verb, the URL and the JSON body, if any. *)
Record call := mkCall {
  method : verb;
  url : string;
  payload : option value;
}.

Definition API_URL : string := "http://localhost:3000/todo".

Definition getTodos : call := mkCall get API_URL None.

End api.

(** ** Timestamps and slots *)

(** No row was updated before it was created, nor after instant [T]. *)
Definition stamped_until (T : Z) (tb : Table) : Prop :=
  Forall (λ r, Todo.createdAt r ≤ Todo.updatedAt r ∧ Todo.updatedAt r ≤ T) (rows tb).

(** No two rows sit on the same position of the same column. *)
Definition slots_distinct (l : list Todo.t) : Prop :=
  ∀ a b, a ∈ l → b ∈ l →
    Todo.status a = Todo.status b → Todo.position a = Todo.position b → a = b.

(** The rows of one column of the board. *)
Definition column (st : TaskStatus) (l : list Todo.t) : list Todo.t :=
  filter (λ r, Todo.status r = st) l.

(** What [update] may do to a row: the id, the title, the description
    and createdAt stay; either nothing changes at all or updatedAt is the
    current instant. *)
Definition rewritten (now : Z) (row row' : Todo.t) : Prop :=
  Todo.id row' = Todo.id row ∧ Todo.title row' = Todo.title row ∧
  Todo.description row' = Todo.description row ∧
  Todo.createdAt row' = Todo.createdAt row ∧
  (row' = row ∨ Todo.updatedAt row' = now).

(** * Properties *)

(** ** The enum *)

Lemma TaskStatus_of_string_label st :
  TaskStatus_of_string (TaskStatus_label st) = Some st.
Proof. by destruct st. Qed.

Lemma TaskStatus_of_string_Some s st :
  TaskStatus_of_string s = Some st → s = TaskStatus_label st.
Proof.
  unfold TaskStatus_of_string. cbn.
  repeat case_decide; intros; simplify_eq/=; done.
Qed.

Lemma TaskStatus_rank_inj a b : TaskStatus_rank a = TaskStatus_rank b → a = b.
Proof. by destruct a, b. Qed.

(** ** The order of [findMany] *)

#[global] Instance orderBy_status_position_trans : Transitive orderBy_status_position.
Proof.
  intros a b c [Hab|[Hab Pab]] [Hbc|[Hbc Pbc]]; unfold orderBy_status_position.
  - left. lia.
  - left. rewrite <- Hbc. done.
  - left. rewrite Hab. done.
  - right. split; [congruence | lia].
Qed.

#[global] Instance orderBy_status_position_total : Total orderBy_status_position.
Proof.
  intros a b. unfold orderBy_status_position.
  destruct (Z.lt_trichotomy (TaskStatus_rank (Todo.status a))
                            (TaskStatus_rank (Todo.status b))) as [H|[H|H]].
  - left. by left.
  - apply TaskStatus_rank_inj in H.
    destruct (Z.le_ge_cases (Todo.position a) (Todo.position b)).
    + left. right. done.
    + right. right. split; [done | lia].
  - right. left. lia.
Qed.

(** C1.  [findAll] returns every row of the table, each exactly as often as
    the table holds it, ordered by status in the order TODO, IN_PROGRESS,
    DONE and by ascending position among rows of equal status; it leaves the
    table as it was, so a second call returns the same sequence. *)
Theorem findAll_sorted_and_repeatable (tb : Table) :
  ∃ found,
    TodoService.findAll tb = (Return found, tb) ∧
    found ≡ₚ rows tb ∧
    StronglySorted orderBy_status_position found ∧
    (∀ i j a b, (i < j)%nat → found !! i = Some a → found !! j = Some b →
       TaskStatus_rank (Todo.status a) ≤ TaskStatus_rank (Todo.status b) ∧
       (Todo.status a = Todo.status b → Todo.position a ≤ Todo.position b)) ∧
    TaskStatus_rank TODO < TaskStatus_rank IN_PROGRESS < TaskStatus_rank DONE ∧
    TodoService.findAll (TodoService.findAll tb).2 = (Return found, tb).
Proof.
  exists (merge_sort orderBy_status_position (rows tb)).
  assert (Hs : StronglySorted orderBy_status_position
                 (merge_sort orderBy_status_position (rows tb)))
    by apply (StronglySorted_merge_sort _).
  split_and!; try done.
  - apply merge_sort_Permutation.
  - intros i j a b Hij Ha Hb.
    apply list_elem_of_split_length in Ha as (l1 & l2 & Hl & Hi).
    rewrite Hl in Hs, Hb.
    apply StronglySorted_app_1_r, StronglySorted_cons in Hs as [Hall _].
    rewrite lookup_app_r in Hb by lia.
    destruct (j - length l1)%nat as [|k] eqn:Ek; [lia|]. simpl in Hb.
    rewrite Forall_forall in Hall.
    destruct (Hall b) as [Hlt|[Heq Hle]].
    { eapply list_elem_of_lookup_2. done. }
    + split; [lia|]. intros E. rewrite E in Hlt. lia.
    + split; [rewrite Heq; lia | done].
Qed.

(** ** Looking a row up by id *)

Lemma list_find_has_id_None i (l : list Todo.t) :
  i ∉ Todo.id <$> l → list_find (prisma.has_id i) l = None.
Proof.
  intros Hi. apply list_find_None, Forall_forall. intros r Hr Hid.
  apply Hi, list_elem_of_fmap. by exists r.
Qed.

Lemma list_find_has_id_Some i (l : list Todo.t) row :
  NoDup (Todo.id <$> l) → row ∈ l → Todo.id row = i →
  ∃ k, list_find (prisma.has_id i) l = Some (k, row).
Proof.
  intros Hnd Hrow Hid.
  destruct (list_find (prisma.has_id i) l) as [[k r]|] eqn:E.
  - exists k. apply list_find_Some in E as (Hk & Hr & _).
    apply list_elem_of_lookup in Hrow as [j Hj].
    assert (k = j) as ->; [|congruence].
    unfold prisma.has_id in Hr.
    apply (NoDup_lookup (Todo.id <$> l) k j i Hnd);
      rewrite list_lookup_fmap; [rewrite Hk|rewrite Hj]; simpl; congruence.
  - apply list_find_None in E. rewrite Forall_forall in E.
    by destruct (E row Hrow).
Qed.

Lemma filter_not_has_id_ids i (l : list Todo.t) :
  Todo.id <$> filter (λ r, ¬ prisma.has_id i r) l = filter (λ j, j ≠ i) (Todo.id <$> l).
Proof.
  induction l as [|r l IH]; [done|].
  rewrite fmap_cons, !filter_cons. unfold prisma.has_id at 1.
  repeat case_decide; try done; rewrite ?fmap_cons; by rewrite IH.
Qed.

Lemma filter_ne_id (i : Z) (l : list Z) : i ∉ l → filter (λ j, j ≠ i) l = l.
Proof.
  induction l as [|j l IH]; [done|]. rewrite not_elem_of_cons. intros [Hne Hl].
  rewrite filter_cons. case_decide; [by rewrite IH | congruence].
Qed.

(** ** [createTodoSchema] *)

(** The schema accepts exactly the objects whose fields pass one by one and
    that carry no further key. *)
Lemma createTodoSchema_accepts o t d s p :
  get "title" o = VStr t → t ≠ EmptyString →
  z.optional z.string (get "description" o) = Some d →
  z.optional z.enum (get "status" o) = Some s →
  z.default 0 (z.optional (z.int z.number)) (get "position" o) = Some p →
  dom o ⊆ createTodoSchema_keys →
  createTodoSchema (VObj o) = Some (CreateTodoDto.mk t d s (Some p)).
Proof.
  intros Ht Hne Hd Hs Hp Hk. unfold createTodoSchema.
  rewrite Ht, Hd, Hs, Hp. unfold z.min, z.string. simpl.
  destruct t; [done|]. simpl. by rewrite decide_True.
Qed.

Lemma createTodoSchema_Some v dto :
  createTodoSchema v = Some dto →
  ∃ o p, v = VObj o ∧
    get "title" o = VStr (CreateTodoDto.title dto) ∧
    CreateTodoDto.title dto ≠ EmptyString ∧
    z.optional z.string (get "description" o) = Some (CreateTodoDto.description dto) ∧
    z.optional z.enum (get "status" o) = Some (CreateTodoDto.status dto) ∧
    z.default 0 (z.optional (z.int z.number)) (get "position" o) = Some p ∧
    CreateTodoDto.position dto = Some p ∧
    dom o ⊆ createTodoSchema_keys.
Proof.
  unfold createTodoSchema. destruct v as [| | | | | |o]; try done.
  intros H.
  destruct (z.min 1 z.string (get "title" o)) as [t|] eqn:Et; [|done].
  destruct (z.optional z.string (get "description" o)) as [d|] eqn:Ed; [|done].
  destruct (z.optional z.enum (get "status" o)) as [s|] eqn:Es; [|done].
  destruct (z.default 0 _ (get "position" o)) as [p|] eqn:Ep; [|done].
  simpl in H. case_decide; [|done]. simplify_eq/=.
  exists o, p. split_and!; try done.
  - unfold z.min, z.string in Et. destruct (get "title" o); simplify_eq/=.
    case_decide; by simplify_eq/=.
  - unfold z.min, z.string in Et. destruct (get "title" o); simplify_eq/=.
    case_decide; simplify_eq/=. intros ->. simpl in *. lia.
Qed.


(** C2.  A title made of blanks only passes [z.string().min(1)], which
    counts characters without trimming: the request is served and the row
    is stored, where the claim asks for a ValidationError. *)
Theorem create_blank_title_is_stored :
  TodoController.create 10 (VObj {[ "title" := VStr "   " ]}) empty_table =
    (Return (Todo.mk 1 "   " None TODO 0 10 10),
     mkTable [Todo.mk 1 "   " None TODO 0 10 10] 2).
Proof. vm_compute. reflexivity. Qed.

(** ** [updateStatus] and [remove] *)

Lemma enum_arg_of_status st : prisma.enum_arg (of_status st) = Some (Some st).
Proof. by destruct st. Qed.

Lemma int_arg_of_int p : prisma.int_arg (of_int p) = Some (Some (prisma.set p)).
Proof. done. Qed.



(** The rows after a successful [update]. *)
Lemma update_found now id st p tb row :
  wf tb → row ∈ rows tb → Todo.id row = id → int4 p →
  TodoService.updateStatus now id (of_status st) (of_int p) tb =
    (Return (prisma.set_fields now (Some st) (Some p) row),
     mkTable ((λ r, if decide (prisma.has_id id r)
                    then prisma.set_fields now (Some st) (Some p) row else r)
                <$> rows tb)
             (id_seq tb)).
Proof.
  intros [Hnd _] Hrow Hid Hp.
  unfold TodoService.updateStatus, prisma.update.
  rewrite enum_arg_of_status, int_arg_of_int.
  rewrite decide_True by done.
  destruct (list_find_has_id_Some id (rows tb) row Hnd Hrow Hid) as [k ->].
  unfold prisma.rewrite_row, prisma.new_value, prisma.fit.
  by rewrite decide_True.
Qed.


(** The table a successful [remove] leaves holds no row with that id. *)
Lemma remove_id_gone id tb row tb' :
  TodoService.remove id tb = (Return row, tb') → id ∉ Todo.id <$> rows tb'.
Proof.
  unfold TodoService.remove, prisma.delete.
  destruct (list_find _ _) as [[k r]|]; [|done]. intros [= _ <-]. simpl.
  rewrite filter_not_has_id_ids. by intros [? _]%list_elem_of_filter.
Qed.

(** C4, as the code has it.  [updateStatus] and [remove] on an id that no
    row carries fail with P2025, a NotFoundError, and hand the table back
    as it was, when the id is a 32-bit integer, as every id of the table
    is, and so is the position.  With arguments of any other shape
    [updateStatus] still fails and still writes nothing.  The id of a task
    that was just removed is such an id, so removing it a second time fails
    in the same way. *)
Theorem unknown_id_is_not_found id tb :
  (id ∉ Todo.id <$> rows tb ∨
   ∃ tb0 row, TodoService.remove id tb0 = (Return row, tb)) →
  int4 id →
  (∀ now st p, int4 p →
     TodoService.updateStatus now id (of_status st) (of_int p) tb =
       (Throw PrismaRecordNotFound, tb)) ∧
  (∀ now status position,
     ∃ e, TodoService.updateStatus now id status position tb = (Throw e, tb)) ∧
  TodoService.remove id tb = (Throw PrismaRecordNotFound, tb) ∧
  classify PrismaRecordNotFound = NotFoundError.
Proof.
  intros H Hint.
  assert (Hid : id ∉ Todo.id <$> rows tb).
  { destruct H as [H|(tb0 & row & H)]; [done|]. by eapply remove_id_gone. }
  assert (Hno : prisma.no_such_row id = PrismaRecordNotFound).
  { unfold prisma.no_such_row. by rewrite decide_True. }
  split_and!; try done.
  - intros now st p Hp. unfold TodoService.updateStatus, prisma.update.
    rewrite enum_arg_of_status, int_arg_of_int.
    rewrite decide_True by done.
    by rewrite list_find_has_id_None, Hno.
  - intros now status position. unfold TodoService.updateStatus, prisma.update.
    rewrite list_find_has_id_None by done.
    destruct (prisma.enum_arg status), (prisma.int_arg position);
      try case_decide; eauto.
  - unfold TodoService.remove, prisma.delete.
    by rewrite list_find_has_id_None, Hno.
Qed.

(** C5, as the code has it.  On an existing task and arguments of the
    right type, the position being one the INTEGER column holds,
    [updateStatus] returns
    the task with the given status and position and [updatedAt] set to the
    current instant, its id, title, description and createdAt kept; in the
    table that row is replaced by the returned one, every other row stays
    in its place unchanged, and the sequence is not touched. *)
Theorem updateStatus_overwrites_one_row now id st p tb row :
  wf tb → row ∈ rows tb → Todo.id row = id → int4 p →
  let row' := Todo.mk id (Todo.title row) (Todo.description row) st p
                      (Todo.createdAt row) now in
  ∃ tb',
    TodoService.updateStatus now id (of_status st) (of_int p) tb = (Return row', tb') ∧
    id_seq tb' = id_seq tb ∧
    length (rows tb') = length (rows tb) ∧
    ∀ k r, rows tb !! k = Some r →
      (r = row → rows tb' !! k = Some row') ∧
      (r ≠ row → rows tb' !! k = Some r).
Proof.
  intros Hwf Hrow Hid Hp row'.
  rewrite (update_found now id st p tb row Hwf Hrow Hid Hp).
  assert (Hrow' : prisma.set_fields now (Some st) (Some p) row = row').
  { unfold prisma.set_fields, row'. simpl. by rewrite Hid. }
  rewrite Hrow'.
  eexists. split; [done|].
  simpl. split_and!; [done|by rewrite length_fmap|].
  intros k r Hk. rewrite list_lookup_fmap, Hk. simpl. split.
  - intros ->. by rewrite decide_True.
  - intros Hne. rewrite decide_False; [done|].
    intros Hr. apply Hne.
    destruct Hwf as [Hnd _].
    apply list_elem_of_lookup in Hrow as [j Hj].
    assert (k = j) as ->; [|congruence].
    unfold prisma.has_id in Hr.
    apply (NoDup_lookup (Todo.id <$> rows tb) k j id Hnd);
      rewrite list_lookup_fmap; [rewrite Hk|rewrite Hj]; simpl; congruence.
Qed.

(** ** [create] *)

(** What [create] does with a body that the schema accepts and whose
    position fits the column. *)
Lemma create_accepted now body dto tb :
  createTodoSchema body = Some dto →
  int4 (default 0 (CreateTodoDto.position dto)) →
  TodoController.create now body tb =
    (let row := Todo.mk (id_seq tb) (CreateTodoDto.title dto)
                  (CreateTodoDto.description dto)
                  (default TODO (CreateTodoDto.status dto))
                  (default 0 (CreateTodoDto.position dto)) now now in
     (Return row, mkTable (rows tb ++ [row]) (id_seq tb + 1))).
Proof.
  intros H Hfit. unfold TodoController.create, ZodValidationPipe.transform.
  rewrite H. unfold TodoService.create, prisma.create. simpl.
  by rewrite decide_True.
Qed.

Lemma create_refused now body tb :
  createTodoSchema body = None →
  TodoController.create now body tb = (Throw BadRequestException, tb).
Proof.
  intros H. unfold TodoController.create, ZodValidationPipe.transform.
  by rewrite H.
Qed.



(** C7, as the code has it.  [z.number().int()] puts no bound at zero on
    [position] and neither does the column: a body with a negative
    position that is a 32-bit integer and otherwise acceptable fields (the
    texts without NUL), on a table whose sequence has not run out, is
    served, and the row is stored with that position. *)
Theorem create_keeps_negative_position now o t d s p tb :
  get "title" o = VStr t → t ≠ EmptyString →
  z.optional z.string (get "description" o) = Some d →
  z.optional z.enum (get "status" o) = Some s →
  dom o ⊆ createTodoSchema_keys →
  get "position" o = of_int p → p < 0 → int4 p →
  storable t → storable (default EmptyString d) → int4 (id_seq tb) →
  let row := Todo.mk (id_seq tb) t d (default TODO s) p now now in
  TodoController.create now (VObj o) tb =
    (Return row, mkTable (rows tb ++ [row]) (id_seq tb + 1)).
Proof.
  intros Ht Hne Hd Hs Hk Hp _ Hfit _ _ _ row.
  rewrite (create_accepted now _ (CreateTodoDto.mk t d s (Some p))); [done| |done].
  apply createTodoSchema_accepts; try done. rewrite Hp.
  unfold of_int, z.default, z.optional, z.int, z.number. simpl.
  rewrite decide_True; [done|]. unfold int4 in Hfit. unfold safe_integer. lia.
Qed.

(** C8.  [.strict()]: a body with a key other than title, description,
    status and position is turned down by the pipe with a
    BadRequestException, a ValidationError, and nothing is written. *)
Theorem create_rejects_unknown_key now o key v tb :
  o !! key = Some v → key ∉ createTodoSchema_keys →
  TodoController.create now (VObj o) tb = (Throw BadRequestException, tb) ∧
  classify BadRequestException = ValidationError.
Proof.
  intros Hkey Hnot. split; [|done]. apply create_refused.
  destruct (createTodoSchema (VObj o)) as [dto|] eqn:E; [|done].
  apply createTodoSchema_Some in E as (o' & p & [= <-] & _ & _ & _ & _ & _ & _ & Hk).
  destruct Hnot. apply Hk, elem_of_dom. by exists v.
Qed.

(** ** Ids *)

Lemma set_fields_id now st p row :
  Todo.id (prisma.set_fields now st p row) = Todo.id row.
Proof. by destruct st, p. Qed.

Lemma set_fields_rewritten now st p row :
  rewritten now row (prisma.set_fields now st p row).
Proof. unfold rewritten. destruct st, p; simpl; auto 10. Qed.

Lemma rewrite_row_rewritten now st w row row' :
  prisma.rewrite_row now st w row = Return row' → rewritten now row row'.
Proof.
  unfold prisma.rewrite_row. destruct w as [w|].
  - destruct (prisma.new_value _ _); intros [= <-]. apply set_fields_rewritten.
  - intros [= <-]. apply set_fields_rewritten.
Qed.

(** The two ways [update] can end: it fails and hands the table back, or
    it finds the row, rewrites it and puts it in place of the old one. *)
Lemma update_inv now id status position tb :
  (∃ e, prisma.update now id status position tb = (Throw e, tb)) ∨
  (∃ k row row',
     list_find (prisma.has_id id) (rows tb) = Some (k, row) ∧
     rewritten now row row' ∧
     prisma.update now id status position tb =
       (Return row',
        mkTable ((λ r, if decide (prisma.has_id id r) then row' else r) <$> rows tb)
                (id_seq tb))).
Proof.
  unfold prisma.update.
  destruct (prisma.enum_arg status) as [st|]; [|eauto].
  destruct (prisma.int_arg position) as [w|]; [|eauto].
  case_decide; [|eauto].
  destruct (list_find _ _) as [[k row]|]; [|eauto].
  destruct (prisma.rewrite_row now st w row) as [row'|e] eqn:E; [|eauto].
  right. exists k, row, row'. split_and!; [done| |done].
  by eapply rewrite_row_rewritten.
Qed.

(** The route either stops at the body or is the service's [update]. *)
Lemma moveTask_inv now id body tb :
  TodoController.moveTask now id body tb = (Throw TypeError, tb) ∨
  TodoController.moveTask now id body tb =
    prisma.update now id (prop "status" body) (prop "position" body) tb.
Proof. destruct body; auto. Qed.

(** The two ways [delete] can end. *)
Lemma delete_inv id tb :
  (∃ e, prisma.delete id tb = (Throw e, tb)) ∨
  (∃ k row,
     list_find (prisma.has_id id) (rows tb) = Some (k, row) ∧
     prisma.delete id tb =
       (Return row,
        mkTable (filter (λ r, ¬ prisma.has_id id r) (rows tb)) (id_seq tb))).
Proof.
  unfold prisma.delete. destruct (list_find _ _) as [[k row]|]; eauto.
Qed.

(** The two ways [create] can end. *)
Lemma create_inv now data tb :
  prisma.create now data tb = (Throw PrismaValueOutOfRange, tb) ∨
  prisma.create now data tb =
    (let row := Todo.mk (id_seq tb) (CreateTodoDto.title data)
                  (CreateTodoDto.description data)
                  (default TODO (CreateTodoDto.status data))
                  (default 0 (CreateTodoDto.position data)) now now in
     (Return row, mkTable (rows tb ++ [row]) (id_seq tb + 1))).
Proof. unfold prisma.create. case_decide; auto. Qed.

(** [update] keeps the column of ids as it is, whatever it is given. *)
Lemma update_ids now id status position tb :
  Todo.id <$> rows (prisma.update now id status position tb).2 = Todo.id <$> rows tb.
Proof.
  destruct (update_inv now id status position tb)
    as [[e ->]|(k & row & row' & Hf & (Hid & _) & ->)]; [done|]. simpl.
  apply list_find_Some in Hf as (_ & Hrow & _). unfold prisma.has_id in Hrow.
  rewrite <- list_fmap_compose. apply list_fmap_ext. intros _ x _. simpl.
  case_decide as Hx; [|done]. unfold prisma.has_id in Hx. congruence.
Qed.

(** [delete] takes the given id out of the column of ids and nothing else. *)
Lemma delete_ids id tb :
  Todo.id <$> rows (prisma.delete id tb).2 = filter (λ i, i ≠ id) (Todo.id <$> rows tb).
Proof.
  unfold prisma.delete.
  destruct (list_find _ _) as [[k r]|] eqn:E; simpl.
  - apply filter_not_has_id_ids.
  - symmetry. apply filter_ne_id. intros (r & Hid & Hr)%list_elem_of_fmap.
    apply list_find_None in E. rewrite Forall_forall in E. by destruct (E r Hr).
Qed.

Lemma wf_ids tb tb' :
  Todo.id <$> rows tb' `sublist_of` Todo.id <$> rows tb → id_seq tb' = id_seq tb →
  wf tb → wf tb'.
Proof.
  intros Hsub Hseq [Hnd Hlt]. split.
  - by eapply sublist_NoDup.
  - rewrite Hseq. apply Forall_forall. intros r Hr.
    assert (Hin : Todo.id r ∈ Todo.id <$> rows tb).
    { eapply (sublist_subseteq _ _ Hsub). apply list_elem_of_fmap. by exists r. }
    apply list_elem_of_fmap in Hin as (r0 & -> & Hr0).
    rewrite Forall_forall in Hlt. by apply Hlt.
Qed.

Lemma create_wf now data tb : wf tb → wf (prisma.create now data tb).2.
Proof.
  intros Hwf. destruct (create_inv now data tb) as [->| ->]; [done|].
  destruct Hwf as [Hnd Hlt]. split; simpl.
  - rewrite fmap_app. apply NoDup_app. split_and!; [done| |apply NoDup_singleton].
    intros i (r & -> & Hr)%list_elem_of_fmap Hi. simpl in Hi.
    apply list_elem_of_singleton in Hi.
    rewrite Forall_forall in Hlt. specialize (Hlt r Hr). lia.
  - apply Forall_app. split.
    + eapply Forall_impl; [done|]. simpl. intros. lia.
    + apply Forall_singleton. simpl. lia.
Qed.

Lemma update_wf now id status position tb :
  wf tb → wf (prisma.update now id status position tb).2.
Proof.
  apply wf_ids.
  - by rewrite update_ids.
  - by destruct (update_inv now id status position tb)
      as [[e ->]|(k & row & row' & _ & _ & ->)].
Qed.

Lemma delete_wf id tb : wf tb → wf (prisma.delete id tb).2.
Proof.
  apply wf_ids.
  - rewrite delete_ids. apply sublist_filter.
  - unfold prisma.delete. by repeat case_match.
Qed.

Lemma empty_table_wf : wf empty_table.
Proof. split; simpl; [apply NoDup_nil_2 | apply Forall_nil_2]. Qed.

(** One request: the invariant is kept, the sequence never goes back, and
    a successful POST returns the row whose id is the value the sequence
    had, which the sequence then leaves behind. *)
Lemma dispatch_step now req tb :
  wf tb →
  wf (dispatch now req tb).2 ∧
  id_seq tb ≤ id_seq (dispatch now req tb).2 ∧
  (∀ body row, req = POST_todo body → (dispatch now req tb).1 = Return (One row) →
     Todo.id row = id_seq tb ∧ id_seq (dispatch now req tb).2 = id_seq tb + 1).
Proof.
  intros Hwf. destruct req as [body| |id body|id]; simpl; unfold lift.
  - unfold TodoController.create, ZodValidationPipe.transform.
    destruct (createTodoSchema body) as [dto|]; simpl.
    + unfold TodoService.create.
      pose proof (create_wf now
                    (CreateTodoDto.mk (CreateTodoDto.title dto)
                       (CreateTodoDto.description dto) (CreateTodoDto.status dto)
                       (CreateTodoDto.position dto)) tb Hwf) as Hw.
      destruct (create_inv now
                    (CreateTodoDto.mk (CreateTodoDto.title dto)
                       (CreateTodoDto.description dto) (CreateTodoDto.status dto)
                       (CreateTodoDto.position dto)) tb) as [E|E];
        rewrite E in Hw |- *; simpl in *.
      * split_and!; [done|lia|]. by intros.
      * split_and!; [done|lia|]. intros _ row _ [= <-]. done.
    + unfold fail. simpl. split_and!; [done|lia|]. by intros.
  - simpl. split_and!; [done|lia|]. by intros.
  - destruct (moveTask_inv now id body tb) as [E|E]; rewrite E.
    { simpl. split_and!; [done|lia|]. by intros. }
    pose proof (update_wf now id (prop "status" body) (prop "position" body) tb Hwf) as Hw.
    destruct (update_inv now id (prop "status" body) (prop "position" body) tb)
      as [[e E']|(k & row & row' & _ & _ & E')]; rewrite E' in Hw |- *; simpl in *.
    all: split_and!; [done|lia|by intros].
  - unfold TodoController.remove, TodoService.remove.
    pose proof (delete_wf id tb Hwf) as Hw.
    destruct (prisma.delete _ _) as [[row|e] tb'] eqn:E; simpl in *.
    all: split_and!; [done| |by intros].
    all: revert E; unfold prisma.delete; repeat case_match; intros [= ]; subst; simpl; lia.
Qed.

Lemma serve_cons now req reqs tb :
  serve ((now, req) :: reqs) tb =
    ((dispatch now req tb).1 :: (serve reqs (dispatch now req tb).2).1,
     (serve reqs (dispatch now req tb).2).2).
Proof.
  simpl. destruct (dispatch now req tb) as [r tb']. simpl.
  by destruct (serve reqs tb').
Qed.

(** Every id handed out over a run lies between the value of the sequence
    at the start and its value at the end, and none is handed out twice. *)
Lemma serve_created_ids reqs tb :
  wf tb →
  wf (serve reqs tb).2 ∧
  id_seq tb ≤ id_seq (serve reqs tb).2 ∧
  NoDup (created_ids reqs (serve reqs tb).1) ∧
  Forall (λ i, id_seq tb ≤ i < id_seq (serve reqs tb).2)
         (created_ids reqs (serve reqs tb).1).
Proof.
  revert tb. induction reqs as [|[now req] reqs IH]; intros tb Hwf.
  { simpl. split_and!; [done|lia|apply NoDup_nil_2|apply Forall_nil_2]. }
  rewrite serve_cons. cbn [fst snd].
  destruct (dispatch_step now req tb Hwf) as (Hwf1 & Hle1 & Hpost).
  destruct (IH _ Hwf1) as (Hwf2 & Hle2 & Hnd & Hall).
  split_and!; [done|lia| |].
  - destruct req as [body| | |]; cbn [created_ids];
      destruct (dispatch _ _ tb).1 as [[row|l]|e]; try done.
    destruct (Hpost body row eq_refl eq_refl) as [Hid Hseq].
    apply NoDup_cons. split; [|done].
    intros Hin. rewrite Forall_forall in Hall. specialize (Hall _ Hin). lia.
  - assert (Hall' : Forall (λ i, id_seq tb ≤ i < id_seq (serve reqs (dispatch now req tb).2).2)
                      (created_ids reqs (serve reqs (dispatch now req tb).2).1)).
    { eapply Forall_impl; [done|]. simpl. intros. lia. }
    destruct req as [body| | |]; cbn [created_ids];
      destruct (dispatch _ _ tb).1 as [[row|l]|e] eqn:E; try done.
    destruct (Hpost body row eq_refl eq_refl) as [Hid Hseq].
    apply Forall_cons. split; [lia|done].
Qed.

(** C9.  Over any run of requests against a table that respects its key,
    the ids of the created tasks are pairwise different and different from
    every id that was in the table before, also when rows were deleted in
    between; a move leaves the ids of all rows, in their places, as they
    were, and a delete removes the given id and changes no other. *)
Theorem ids_are_unique_and_fixed reqs tb :
  wf tb →
  NoDup (created_ids reqs (serve reqs tb).1) ∧
  (∀ i, i ∈ created_ids reqs (serve reqs tb).1 → i ∉ Todo.id <$> rows tb) ∧
  (∀ now id body,
     Todo.id <$> rows (TodoController.moveTask now id body tb).2 = Todo.id <$> rows tb) ∧
  (∀ now id body row,
     (TodoController.moveTask now id body tb).1 = Return row → Todo.id row = id) ∧
  (∀ id,
     Todo.id <$> rows (TodoController.remove id tb).2 =
       filter (λ i, i ≠ id) (Todo.id <$> rows tb)).
Proof.
  intros Hwf.
  destruct (serve_created_ids reqs tb Hwf) as (_ & _ & Hnd & Hall).
  split_and!; [done| | | |].
  - intros i Hi (r & -> & Hr)%list_elem_of_fmap.
    rewrite Forall_forall in Hall. specialize (Hall _ Hi).
    destruct Hwf as [_ Hlt]. rewrite Forall_forall in Hlt. specialize (Hlt r Hr). lia.
  - intros now id body.
    destruct (moveTask_inv now id body tb) as [-> | ->]; [done|]. apply update_ids.
  - intros now id body row.
    destruct (moveTask_inv now id body tb) as [-> | ->]; [done|].
    destruct (update_inv now id (prop "status" body) (prop "position" body) tb)
      as [[e ->]|(k & r & row' & Hf & (Hid & _) & ->)]; [done|].
    simpl. intros [= <-]. rewrite Hid.
    by apply list_find_Some in Hf as (_ & Hf & _).
  - intros. apply delete_ids.
Qed.

(** ** The response envelope *)

(** C10.  Every object the interceptor builds has [success] equal to
    true: there is one per emitted value, carrying that value as [data];
    an error notification passes through without any object being built
    for it, so a handler that throws yields no envelope at all. *)
Theorem intercept_success_always_true {T} (clock : nat → string) (next : Observable T) :
  (∀ r, r ∈ emitted (TransformInterceptor.intercept clock next) → success r = true) ∧
  data <$> emitted (TransformInterceptor.intercept clock next) = emitted next ∧
  failure (TransformInterceptor.intercept clock next) = failure next ∧
  (∀ e, emitted (TransformInterceptor.intercept clock (handle (T:=T) (Throw e))) = []) ∧
  (∀ a : T, emitted (TransformInterceptor.intercept clock (handle (Return a))) =
          [mkResponse true a (clock 0%nat)]).
Proof.
  unfold TransformInterceptor.intercept, rx.map. simpl. split_and!; try done.
  - intros r (k & a & -> & _)%elem_of_lookup_imap. done.
  - generalize clock. induction (emitted next) as [|a l IH]; intros c; [done|].
    simpl. f_equal. apply (IH (c ∘ S)).
Qed.

(** ** The board at work *)

Example scenario_replies :
  let task_A' := Todo.mk 1 "Write spec" None IN_PROGRESS 0 10 40 in
  serve scenario empty_table =
    ([ Return (One task_A); Return (One task_B); Return (Many [task_A; task_B]);
       Return (One task_A'); Return (Many [task_B; task_A']);
       Return (One task_B); Return (Many [task_A']);
       Throw PrismaRecordNotFound ],
     mkTable [task_A'] 3).
Proof. vm_compute. reflexivity. Qed.

Lemma board_wf : wf board.
Proof.
  split; simpl.
  - apply (bool_decide_unpack _). vm_compute. exact I.
  - repeat constructor.
Defined.

Lemma task_A_on_board : task_A ∈ rows board.
Proof. simpl. left. Defined.



(** An id beyond the 32-bit range names no task either, but the failure
    is P2020, which is no NotFoundError. *)
Lemma unknown_id_out_of_range_counterexample :
  (2147483648 ∉ Todo.id <$> rows board) ∧
  TodoService.remove 2147483648 board = (Throw PrismaValueOutOfRange, board) ∧
  TodoService.updateStatus 40 2147483648 (of_status DONE) (of_int 0) board =
    (Throw PrismaValueOutOfRange, board) ∧
  classify PrismaValueOutOfRange ≠ NotFoundError.
Proof.
  split_and!; [|vm_compute; reflexivity..|discriminate].
  apply (bool_decide_unpack _). vm_compute. exact I.
Qed.

Lemma unknown_id_is_not_found_witness :
  (∀ now st p, int4 p →
     TodoService.updateStatus now 2 (of_status st) (of_int p) (mkTable [task_A] 3) =
       (Throw PrismaRecordNotFound, mkTable [task_A] 3)) ∧
  (∀ now status position,
     ∃ e, TodoService.updateStatus now 2 status position (mkTable [task_A] 3) =
            (Throw e, mkTable [task_A] 3)) ∧
  TodoService.remove 2 (mkTable [task_A] 3) =
    (Throw PrismaRecordNotFound, mkTable [task_A] 3) ∧
  classify PrismaRecordNotFound = NotFoundError.
Proof.
  apply (unknown_id_is_not_found 2 (mkTable [task_A] 3)).
  - right. exists board, task_B. vm_compute. reflexivity.
  - unfold int4. lia.
Defined.

(** A move to position 2147483648, a non-negative integer, is refused by
    the column and writes nothing. *)
Lemma updateStatus_out_of_range_counterexample :
  task_A ∈ rows board ∧
  TodoService.updateStatus 40 1 (of_status DONE) (of_int 2147483648) board =
    (Throw PrismaValueOutOfRange, board).
Proof. split; [apply task_A_on_board | vm_compute; reflexivity]. Qed.

Lemma updateStatus_overwrites_one_row_witness :
  ∃ tb',
    TodoService.updateStatus 40 1 (of_status IN_PROGRESS) (of_int 0) board =
      (Return (Todo.mk 1 "Write spec" None IN_PROGRESS 0 10 40), tb') ∧
    id_seq tb' = id_seq board ∧
    length (rows tb') = length (rows board) ∧
    ∀ k r, rows board !! k = Some r →
      (r = task_A → rows tb' !! k = Some (Todo.mk 1 "Write spec" None IN_PROGRESS 0 10 40)) ∧
      (r ≠ task_A → rows tb' !! k = Some r).
Proof.
  apply (updateStatus_overwrites_one_row 40 1 IN_PROGRESS 0 board task_A
           board_wf task_A_on_board eq_refl).
  unfold int4. lia.
Defined.


(** A task created at position -1. *)
Lemma create_negative_position_counterexample :
  let body := VObj {[ "title" := VStr "Below zero"; "position" := VNum (Int (-1)) ]} in
  let row := Todo.mk 3 "Below zero" None TODO (-1) 30 30 in
  prop "position" body = VNum (Int (-1)) ∧
  TodoController.create 30 body board = (Return row, mkTable [task_A; task_B; row] 4) ∧
  ¬ ∃ e, TodoController.create 30 body board = (Throw e, board).
Proof.
  split_and!; [vm_compute; reflexivity.. |].
  intros [e He]. vm_compute in He. discriminate He.
Qed.

Lemma create_keeps_negative_position_witness :
  TodoController.create 30
    (VObj {[ "title" := VStr "Below zero"; "position" := VNum (Int (-1)) ]}) board =
    (Return (Todo.mk 3 "Below zero" None TODO (-1) 30 30),
     mkTable (rows board ++ [Todo.mk 3 "Below zero" None TODO (-1) 30 30]) (id_seq board + 1)).
Proof.
  apply (create_keeps_negative_position 30
           {[ "title" := VStr "Below zero"; "position" := VNum (Int (-1)) ]}
           "Below zero" None None (-1) board).
  - vm_compute. reflexivity.
  - discriminate.
  - vm_compute. reflexivity.
  - vm_compute. reflexivity.
  - apply (bool_decide_unpack _). vm_compute. exact I.
  - vm_compute. reflexivity.
  - lia.
  - unfold int4. lia.
  - simpl. repeat split; discriminate.
  - exact I.
  - unfold int4. simpl. lia.
Defined.

Lemma create_rejects_unknown_key_witness :
  TodoController.create 30
    (VObj {[ "title" := VStr "Review"; "completed" := VBool false ]}) board =
    (Throw BadRequestException, board) ∧
  classify BadRequestException = ValidationError.
Proof.
  apply (create_rejects_unknown_key 30
           {[ "title" := VStr "Review"; "completed" := VBool false ]}
           "completed" (VBool false) board).
  - vm_compute. reflexivity.
  - apply (bool_decide_unpack _). vm_compute. exact I.
Defined.

Lemma ids_are_unique_and_fixed_witness :
  NoDup (created_ids scenario (serve scenario empty_table).1) ∧
  (∀ i, i ∈ created_ids scenario (serve scenario empty_table).1 →
        i ∉ Todo.id <$> rows empty_table) ∧
  (∀ now id body,
     Todo.id <$> rows (TodoController.moveTask now id body empty_table).2 =
       Todo.id <$> rows empty_table) ∧
  (∀ now id body row,
     (TodoController.moveTask now id body empty_table).1 = Return row → Todo.id row = id) ∧
  (∀ id,
     Todo.id <$> rows (TodoController.remove id empty_table).2 =
       filter (λ i, i ≠ id) (Todo.id <$> rows empty_table)).
Proof.
  apply (ids_are_unique_and_fixed scenario empty_table).
  split; simpl.
  - apply (bool_decide_unpack _). vm_compute. exact I.
  - constructor.
Defined.

(** * Further properties *)

(** ** What the schema lets through *)

Lemma optional_string_Some v d :
  z.optional z.string v = Some d ↔
  match d with Some s => v = VStr s | None => v = VUndefined end.
Proof.
  destruct v, d; simpl; split; intros H; simplify_eq/=; done.
Qed.

Lemma enum_Some v st : z.enum v = Some st ↔ v = VStr (TaskStatus_label st).
Proof.
  split.
  - destruct v; simpl; try done. by intros ->%TaskStatus_of_string_Some.
  - intros ->. simpl. apply TaskStatus_of_string_label.
Qed.

Lemma optional_enum_Some v s :
  z.optional z.enum v = Some s ↔
  match s with Some st => v = of_status st | None => v = VUndefined end.
Proof.
  destruct s as [st|].
  - unfold of_status. rewrite <- enum_Some.
    destruct v; simpl; try done; destruct (TaskStatus_of_string _); naive_solver.
  - destruct v; simpl; try done. destruct (TaskStatus_of_string _); naive_solver.
Qed.

Lemma position_schema_Some v p :
  z.default 0 (z.optional (z.int z.number)) v = Some p ↔
  (v = of_int p ∧ safe_integer p) ∨ (v = VUndefined ∧ p = 0).
Proof.
  unfold of_int. destruct v as [| |b|[n|t]|s|l|o].
  4: (unfold z.default, z.optional, z.int, z.number;
      destruct (decide (safe_integer n)) as [Hn|Hn] eqn:E).
  all: simpl; rewrite ?E; simpl.
  2-3,6-9: (split; [intros H; discriminate H
                    | intros [[H _]|[H _]]; discriminate H]).
  - split.
    + intros [= <-]. right. done.
    + intros [[H _]|[_ ->]]; [discriminate H | done].
  - split.
    + intros [= <-]. auto.
    + intros [[H _]|[H _]]; [by injection H as -> | discriminate H].
  - split.
    + intros H. discriminate H.
    + intros [[H Hp]|[H _]]; [injection H as ->; done | discriminate H].
Qed.

(** X3.  [z.enum] reads a status off a value exactly when the value is
    the label of that status: labels and members go back and forth without
    loss, two members never share a label, and no other string, in
    particular no other spelling of a label, names a member. *)
Theorem enum_parses_exactly_the_labels v st :
  (z.enum v = Some st ↔ v = VStr (TaskStatus_label st)) ∧
  (∀ st', TaskStatus_label st = TaskStatus_label st' → st = st').
Proof.
  split; [apply enum_Some|]. intros st' H.
  pose proof (TaskStatus_of_string_label st) as H1. rewrite H in H1.
  rewrite TaskStatus_of_string_label in H1. congruence.
Qed.

(** X1.  [createTodoSchema] accepts a value exactly when it is an object
    whose title is a non-empty string, whose description is a string or
    absent, whose status is one of the three labels or absent, whose
    position is a safe integer or absent, and which has no other key.  What
    it returns is the body as sent, nothing trimmed or converted, with 0
    in place of an absent position. *)
Theorem createTodoSchema_accepts_exactly v dto :
  createTodoSchema v = Some dto ↔
  ∃ o, v = VObj o ∧
    get "title" o = VStr (CreateTodoDto.title dto) ∧
    CreateTodoDto.title dto ≠ EmptyString ∧
    match CreateTodoDto.description dto with
    | Some d => get "description" o = VStr d
    | None => get "description" o = VUndefined
    end ∧
    match CreateTodoDto.status dto with
    | Some st => get "status" o = of_status st
    | None => get "status" o = VUndefined
    end ∧
    (∃ p, CreateTodoDto.position dto = Some p ∧
          ((get "position" o = of_int p ∧ safe_integer p) ∨
           (get "position" o = VUndefined ∧ p = 0))) ∧
    dom o ⊆ createTodoSchema_keys.
Proof.
  split.
  - intros (o & p & -> & Ht & Hne & Hd & Hs & Hp & Hpos & Hk)%createTodoSchema_Some.
    exists o. split_and!; try done.
    + by apply optional_string_Some.
    + by apply optional_enum_Some.
    + exists p. split; [done|]. by apply position_schema_Some.
  - intros (o & -> & Ht & Hne & Hd & Hs & (p & Hpos & Hp) & Hk).
    destruct dto as [t d s pos]. simpl in *. subst pos.
    apply createTodoSchema_accepts; try done.
    + by apply optional_string_Some.
    + by apply optional_enum_Some.
    + by apply position_schema_Some.
Qed.


(** ** Failing and succeeding *)

Lemma dispatch_Throw now req tb e tb' :
  dispatch now req tb = (Throw e, tb') → tb' = tb ∧ req ≠ GET_todo.
Proof.
  destruct req as [body| |id body|id]; simpl; unfold lift.
  - unfold TodoController.create, ZodValidationPipe.transform, fail.
    destruct (createTodoSchema body) as [dto|]; simpl; [|by intros [= <- <-]].
    unfold TodoService.create.
    by destruct (create_inv now
                   (CreateTodoDto.mk (CreateTodoDto.title dto)
                      (CreateTodoDto.description dto) (CreateTodoDto.status dto)
                      (CreateTodoDto.position dto)) tb) as [-> | ->];
      simpl; intros [= <- <-].
  - simpl. done.
  - destruct (moveTask_inv now id body tb) as [-> | ->]; [by intros [= <- <-]|].
    by destruct (update_inv now id (prop "status" body) (prop "position" body) tb)
      as [[e' ->]|(k & row & row' & _ & _ & ->)]; intros [= <- <-].
  - unfold TodoController.remove, TodoService.remove.
    by destruct (delete_inv id tb) as [[e' ->]|(k & row & _ & ->)]; intros [= <- <-].
Qed.

(** X4.  A request that fails leaves the table exactly as it found it,
    whatever the route, the input and the reason of the failure; and the
    listing is the one route that never fails. *)
Theorem failed_request_changes_nothing now req tb e :
  (dispatch now req tb).1 = Throw e →
  (dispatch now req tb).2 = tb ∧ req ≠ GET_todo.
Proof.
  destruct (dispatch now req tb) as [r tb'] eqn:E. simpl. intros ->.
  by apply (dispatch_Throw now req tb e tb').
Qed.

Lemma failed_request_changes_nothing_witness :
  (dispatch 50 (PATCH_todo_move 1 (VObj {[ "position" := VNum (Int 2147483648) ]}))
     board).2 = board ∧
  PATCH_todo_move 1 (VObj {[ "position" := VNum (Int 2147483648) ]}) ≠ GET_todo.
Proof.
  apply (failed_request_changes_nothing 50
           (PATCH_todo_move 1 (VObj {[ "position" := VNum (Int 2147483648) ]}))
           board PrismaValueOutOfRange).
  vm_compute. reflexivity.
Defined.

Lemma known_id_found id (l : list Todo.t) :
  id ∈ Todo.id <$> l ↔ is_Some (list_find (prisma.has_id id) l).
Proof.
  split.
  - intros (r & -> & Hr)%list_elem_of_fmap.
    by apply (list_find_elem_of _ _ r).
  - intros [[k r] (Hk & Hid & _)%list_find_Some].
    apply list_elem_of_fmap. exists r. split; [done|].
    by eapply list_elem_of_lookup_2.
Qed.

(** X5.  With a status of the enum and a position that the INTEGER column
    holds, a move succeeds exactly when some row carries the id, and a
    delete succeeds exactly when some row carries the id: there is no other
    reason for either to fail, and neither ever succeeds on an unknown
    id. *)
Theorem move_and_remove_succeed_iff_id_known now id st p tb :
  int4 p →
  (id ∈ Todo.id <$> rows tb ↔
     ∃ row tb', TodoService.updateStatus now id (of_status st) (of_int p) tb
                = (Return row, tb')) ∧
  (id ∈ Todo.id <$> rows tb ↔
     ∃ row tb', TodoService.remove id tb = (Return row, tb')).
Proof.
  intros Hp. rewrite known_id_found.
  unfold TodoService.updateStatus, TodoService.remove.
  unfold prisma.update, prisma.delete.
  rewrite enum_arg_of_status, int_arg_of_int. rewrite decide_True by done.
  unfold prisma.rewrite_row, prisma.new_value, prisma.fit.
  rewrite decide_True by done.
  destruct (list_find _ _) as [[k r]|]; split; split;
    try (intros _; eauto; fail); try (intros (? & ? & [=])); try (intros [? [=]]).
Qed.

Lemma move_and_remove_succeed_iff_id_known_witness :
  (1 ∈ Todo.id <$> rows board ↔
     ∃ row tb', TodoService.updateStatus 40 1 (of_status DONE) (of_int 7) board
                = (Return row, tb')) ∧
  (1 ∈ Todo.id <$> rows board ↔
     ∃ row tb', TodoService.remove 1 board = (Return row, tb')).
Proof.
  apply (move_and_remove_succeed_iff_id_known 40 1 DONE 7 board).
  unfold int4. lia.
Defined.

(** ** Runs of requests *)

(** X6.  The key invariant survives every run of requests: afterwards no
    two rows share an id and every id lies below the sequence; this holds
    in particular for every table reached from the empty one. *)
Theorem serve_keeps_ids_unique reqs tb :
  wf tb → wf (serve reqs tb).2 ∧ wf (serve reqs empty_table).2.
Proof.
  intros Hwf. split.
  - by apply serve_created_ids.
  - apply serve_created_ids, empty_table_wf.
Qed.

Lemma serve_keeps_ids_unique_witness :
  wf (serve scenario board).2 ∧ wf (serve scenario empty_table).2.
Proof. apply (serve_keeps_ids_unique scenario board board_wf). Defined.

(** X7.  The sequence advances by one for each task that is created and
    not at all otherwise: a request that is turned down, a listing, a move
    and a delete draw no id, and a delete gives none back. *)
Theorem sequence_counts_created_tasks reqs tb :
  id_seq (serve reqs tb).2 =
    id_seq tb + Z.of_nat (length (created_ids reqs (serve reqs tb).1)).
Proof.
  revert tb. induction reqs as [|[now req] reqs IH]; intros tb.
  { simpl. lia. }
  rewrite serve_cons. cbn [fst snd]. rewrite IH.
  destruct req as [body| |id body|id]; cbn [created_ids dispatch]; unfold lift.
  - unfold TodoController.create, ZodValidationPipe.transform, fail.
    destruct (createTodoSchema body) as [dto|]; simpl; [|lia].
    unfold TodoService.create.
    destruct (create_inv now
                (CreateTodoDto.mk (CreateTodoDto.title dto)
                   (CreateTodoDto.description dto) (CreateTodoDto.status dto)
                   (CreateTodoDto.position dto)) tb) as [-> | ->]; simpl; lia.
  - simpl. lia.
  - destruct (moveTask_inv now id body tb) as [-> | ->]; [simpl; lia|].
    destruct (update_inv now id (prop "status" body) (prop "position" body) tb)
      as [[e' ->]|(k & row & row' & _ & _ & ->)]; simpl; lia.
  - unfold TodoController.remove, TodoService.remove.
    destruct (delete_inv id tb) as [[e' ->]|(k & row & _ & ->)]; simpl; lia.
Qed.

(** ** One operation after another *)

Lemma filter_not_has_id_all id (l : list Todo.t) :
  id ∉ Todo.id <$> l → filter (λ r, ¬ prisma.has_id id r) l = l.
Proof.
  induction l as [|r l IH]; [done|]. rewrite fmap_cons, not_elem_of_cons.
  intros [Hne Hl]. rewrite filter_cons. unfold prisma.has_id at 1.
  case_decide; [by rewrite IH | by destruct H].
Qed.

(** X8.  A successful delete hands back a row that was in the table
    under the given id and takes out that row alone: the rows before it and
    after it stay as they were and in their order, the sequence is not
    touched, and a listing made afterwards shows no row with that id. *)
Theorem remove_takes_out_one_row id tb row tb' :
  wf tb → TodoService.remove id tb = (Return row, tb') →
  Todo.id row = id ∧
  (∃ l1 l2, rows tb = l1 ++ row :: l2 ∧ rows tb' = l1 ++ l2) ∧
  id_seq tb' = id_seq tb ∧
  ∃ found, TodoService.findAll tb' = (Return found, tb') ∧
           found ≡ₚ rows tb' ∧ ∀ r, r ∈ found → Todo.id r ≠ id.
Proof.
  intros [Hnd _]. unfold TodoService.remove, prisma.delete.
  destruct (list_find _ _) as [[k r]|] eqn:E; [|done]. intros [= -> <-].
  apply list_find_Some in E as (Hk & Hid & _). unfold prisma.has_id in Hid.
  apply list_elem_of_split_length in Hk as (l1 & l2 & Hl & _).
  assert (Hfil : filter (λ r, ¬ prisma.has_id id r) (rows tb) = l1 ++ l2).
  { rewrite Hl in Hnd |- *. rewrite fmap_app, fmap_cons in Hnd.
    apply NoDup_app in Hnd as (_ & Hdis & [Hrow _]%NoDup_cons).
    rewrite filter_app, filter_cons. unfold prisma.has_id at 2.
    rewrite decide_False by (intros Hn; by apply Hn).
    rewrite !filter_not_has_id_all; [done|by rewrite <- Hid|].
    intros Hin. apply (Hdis _ Hin). rewrite Hid. left. }
  split_and!; [done| |done|].
  - exists l1, l2. by rewrite Hfil.
  - eexists. split; [done|]. simpl. split; [apply merge_sort_Permutation|].
    intros r0 Hr0 Hr0id.
    rewrite merge_sort_Permutation in Hr0.
    apply list_elem_of_filter in Hr0 as [Hne _]. by apply Hne.
Qed.

Lemma remove_takes_out_one_row_witness :
  Todo.id task_B = 2 ∧
  (∃ l1 l2, rows board = l1 ++ task_B :: l2 ∧ rows (mkTable [task_A] 3) = l1 ++ l2) ∧
  id_seq (mkTable [task_A] 3) = id_seq board ∧
  ∃ found, TodoService.findAll (mkTable [task_A] 3) = (Return found, mkTable [task_A] 3) ∧
           found ≡ₚ rows (mkTable [task_A] 3) ∧ ∀ r, r ∈ found → Todo.id r ≠ 2.
Proof.
  apply (remove_takes_out_one_row 2 board task_B (mkTable [task_A] 3) board_wf).
  vm_compute. reflexivity.
Defined.

(** A create that returns has appended the row it returns, under the id
    the sequence had. *)
Lemma create_Return now body row tb tb' :
  TodoController.create now body tb = (Return row, tb') →
  Todo.id row = id_seq tb ∧ tb' = mkTable (rows tb ++ [row]) (id_seq tb + 1).
Proof.
  unfold TodoController.create, ZodValidationPipe.transform, fail.
  destruct (createTodoSchema body) as [dto|]; [|done].
  unfold TodoService.create.
  by destruct (create_inv now
                 (CreateTodoDto.mk (CreateTodoDto.title dto)
                    (CreateTodoDto.description dto) (CreateTodoDto.status dto)
                    (CreateTodoDto.position dto)) tb) as [-> | ->];
    simpl; intros [= <- <-].
Qed.

(** X9.  A task that was just created is on the next listing, which holds
    it together with all the rows that were there before and nothing
    else. *)
Theorem created_task_is_listed now body row tb tb' :
  TodoController.create now body tb = (Return row, tb') →
  ∃ found, TodoController.findAll tb' = (Return found, tb') ∧
           row ∈ found ∧ found ≡ₚ row :: rows tb.
Proof.
  intros [_ ->]%create_Return.
  eexists. split; [done|].
  assert (Hp : merge_sort orderBy_status_position (rows tb ++ [row])
               ≡ₚ row :: rows tb).
  { rewrite merge_sort_Permutation. by rewrite Permutation_app_comm. }
  simpl. split; [|done]. rewrite Hp. left.
Qed.

Lemma created_task_is_listed_witness :
  ∃ found, TodoController.findAll (mkTable [task_A] 2) = (Return found, mkTable [task_A] 2) ∧
           task_A ∈ found ∧ found ≡ₚ task_A :: rows empty_table.
Proof.
  apply (created_task_is_listed 10 body_A task_A empty_table (mkTable [task_A] 2)).
  vm_compute. reflexivity.
Defined.

(** A move with arguments of the right type that returns has found a row
    under the id, and its position fits the column. *)
Lemma update_Return now id st p tb row' tb' :
  TodoService.updateStatus now id (of_status st) (of_int p) tb = (Return row', tb') →
  int4 p ∧ ∃ row, row ∈ rows tb ∧ Todo.id row = id.
Proof.
  unfold TodoService.updateStatus, prisma.update.
  rewrite enum_arg_of_status, int_arg_of_int.
  case_decide as Hp; [|done]. intros H. split; [exact Hp|].
  destruct (list_find _ _) as [[k row]|] eqn:E; [|done].
  apply list_find_Some in E as (Hk & Hid & _).
  exists row. split; [by eapply list_elem_of_lookup_2 | done].
Qed.

(** X10.  After a successful move the next listing shows the task once,
    with the status and position it was moved to: the row the move
    returned is on the listing, no other row on the listing carries the id,
    and the listing is as long as the table was before. *)
Theorem moved_task_is_listed_at_target now id st p tb row' tb' :
  wf tb →
  TodoService.updateStatus now id (of_status st) (of_int p) tb = (Return row', tb') →
  ∃ found,
    TodoService.findAll tb' = (Return found, tb') ∧
    Todo.status row' = st ∧ Todo.position row' = p ∧
    row' ∈ found ∧
    (∀ r, r ∈ found → Todo.id r = id → r = row') ∧
    length found = length (rows tb).
Proof.
  intros Hwf Hmove.
  destruct (update_Return _ _ _ _ _ _ _ Hmove) as (Hp & row & Hrow & Hid).
  rewrite (update_found now id st p tb row Hwf Hrow Hid Hp) in Hmove.
  injection Hmove as <- <-.
  eexists. split; [done|]. simpl.
  split_and!; [done|done| | |].
  - rewrite merge_sort_Permutation. apply list_elem_of_fmap. exists row.
    by rewrite decide_True.
  - intros r Hr Hrid. rewrite merge_sort_Permutation in Hr.
    apply list_elem_of_fmap in Hr as (r0 & -> & Hr0).
    case_decide as Hc; [done|]. by destruct Hc.
  - by rewrite merge_sort_Permutation, length_fmap.
Qed.

Lemma moved_task_is_listed_at_target_witness :
  ∃ found,
    TodoService.findAll (mkTable [Todo.mk 1 "Write spec" None DONE 5 10 40; task_B] 3) =
      (Return found, mkTable [Todo.mk 1 "Write spec" None DONE 5 10 40; task_B] 3) ∧
    Todo.status (Todo.mk 1 "Write spec" None DONE 5 10 40) = DONE ∧
    Todo.position (Todo.mk 1 "Write spec" None DONE 5 10 40) = 5 ∧
    Todo.mk 1 "Write spec" None DONE 5 10 40 ∈ found ∧
    (∀ r, r ∈ found → Todo.id r = 1 → r = Todo.mk 1 "Write spec" None DONE 5 10 40) ∧
    length found = length (rows board).
Proof.
  apply (moved_task_is_listed_at_target 40 1 DONE 5 board
           (Todo.mk 1 "Write spec" None DONE 5 10 40)
           (mkTable [Todo.mk 1 "Write spec" None DONE 5 10 40; task_B] 3) board_wf).
  vm_compute. reflexivity.
Defined.

(** X11.  Of two moves of the same task, each to a position that the
    INTEGER column holds, the second wins outright: the row returned and
    the table left behind are those of the second move made alone, so
    nothing of the first move, not even its timestamp, is kept. *)
Theorem second_move_wins now1 now2 id st1 p1 st2 p2 tb row :
  wf tb → row ∈ rows tb → Todo.id row = id → int4 p1 → int4 p2 →
  TodoService.updateStatus now2 id (of_status st2) (of_int p2)
    (TodoService.updateStatus now1 id (of_status st1) (of_int p1) tb).2 =
  TodoService.updateStatus now2 id (of_status st2) (of_int p2) tb.
Proof.
  intros Hwf Hrow Hid Hp1 Hp2.
  pose proof (update_wf now1 id (of_status st1) (of_int p1) tb Hwf) as Hw.
  fold (TodoService.updateStatus now1 id (of_status st1) (of_int p1) tb) in Hw.
  rewrite (update_found now1 id st1 p1 tb row Hwf Hrow Hid Hp1) in Hw |- *.
  cbn [snd] in Hw |- *.
  rewrite (update_found now2 id st2 p2 tb row Hwf Hrow Hid Hp2).
  rewrite (update_found now2 id st2 p2 _
             (prisma.set_fields now1 (Some st1) (Some p1) row) Hw); [| |done|done].
  - f_equal. f_equal. simpl. rewrite <- list_fmap_compose.
    apply list_fmap_ext. intros _ r _. simpl. by repeat case_decide.
  - simpl. apply list_elem_of_fmap. exists row. by rewrite decide_True.
Qed.

Lemma second_move_wins_witness :
  TodoService.updateStatus 50 1 (of_status DONE) (of_int 2)
    (TodoService.updateStatus 40 1 (of_status IN_PROGRESS) (of_int 0) board).2 =
  TodoService.updateStatus 50 1 (of_status DONE) (of_int 2) board.
Proof.
  apply (second_move_wins 40 50 1 IN_PROGRESS 0 DONE 2 board task_A
           board_wf task_A_on_board eq_refl); unfold int4; lia.
Defined.

(** X12.  Deleting the task that was just created gives the old rows
    back, in their order, and returns the row as it was created; the
    sequence stays advanced, so the id is spent. *)
Theorem create_then_remove_restores_rows now body row tb tb1 :
  wf tb → TodoController.create now body tb = (Return row, tb1) →
  TodoController.remove (Todo.id row) tb1 =
    (Return row, mkTable (rows tb) (id_seq tb + 1)).
Proof.
  intros [Hnd Hlt] [Hrid ->]%create_Return. rewrite Hrid.
  assert (Hfresh : id_seq tb ∉ Todo.id <$> rows tb).
  { intros (r & Hr & Hin)%list_elem_of_fmap. rewrite Forall_forall in Hlt.
    specialize (Hlt r Hin). lia. }
  unfold TodoController.remove, TodoService.remove, prisma.delete. simpl.
  destruct (list_find_has_id_Some (id_seq tb) (rows tb ++ [row]) row) as [k ->].
  - rewrite fmap_app. apply NoDup_app. split_and!; [done| |apply NoDup_singleton].
    intros i Hi Hi'. apply list_elem_of_singleton in Hi'. subst i.
    by rewrite Hrid in Hi.
  - apply elem_of_app. right. left.
  - done.
  - f_equal. f_equal. rewrite filter_app, filter_not_has_id_all by done.
    rewrite filter_cons. unfold prisma.has_id at 1.
    rewrite decide_False by (intros Hn; by apply Hn).
    by rewrite filter_nil, app_nil_r.
Qed.

Lemma create_then_remove_restores_rows_witness :
  TodoController.remove (Todo.id task_A) (mkTable [task_A] 2) =
    (Return task_A, mkTable (rows empty_table) (id_seq empty_table + 1)).
Proof.
  apply (create_then_remove_restores_rows 10 body_A task_A empty_table
           (mkTable [task_A] 2) empty_table_wf).
  vm_compute. reflexivity.
Defined.

(** ** What no request does *)

(** What one request can do to the table: nothing; append a row stamped
    with the current instant under the next id; put a rewritten row in the
    place of the rows with one id; take out the rows with one id. *)
Lemma dispatch_table now req tb :
  (dispatch now req tb).2 = tb ∨
  (∃ row, Todo.id row = id_seq tb ∧ Todo.createdAt row = now ∧
          Todo.updatedAt row = now ∧
          (dispatch now req tb).2 = mkTable (rows tb ++ [row]) (id_seq tb + 1)) ∨
  (∃ id row row', row ∈ rows tb ∧ rewritten now row row' ∧
          (dispatch now req tb).2 =
            mkTable ((λ r, if decide (prisma.has_id id r) then row' else r) <$> rows tb)
                    (id_seq tb)) ∨
  (∃ id, (dispatch now req tb).2 =
           mkTable (filter (λ r, ¬ prisma.has_id id r) (rows tb)) (id_seq tb)).
Proof.
  destruct req as [body| |id body|id]; simpl; unfold lift.
  - unfold TodoController.create, ZodValidationPipe.transform, fail.
    destruct (createTodoSchema body) as [dto|]; simpl; [|by left].
    unfold TodoService.create.
    destruct (create_inv now
                (CreateTodoDto.mk (CreateTodoDto.title dto)
                   (CreateTodoDto.description dto) (CreateTodoDto.status dto)
                   (CreateTodoDto.position dto)) tb) as [-> | ->]; [by left|].
    right. left. simpl. eexists (Todo.mk _ _ _ _ _ _ _). split_and!; reflexivity.
  - by left.
  - destruct (moveTask_inv now id body tb) as [-> | ->]; [by left|].
    destruct (update_inv now id (prop "status" body) (prop "position" body) tb)
      as [[e' ->]|(k & row & row' & Hf & Hrw & ->)]; [by left|].
    right. right. left. exists id, row, row'. split_and!; [|done|done].
    apply list_find_Some in Hf as (Hk & _). by eapply list_elem_of_lookup_2.
  - unfold TodoController.remove, TodoService.remove.
    destruct (delete_inv id tb) as [[e' ->]|(k & row & _ & ->)]; [by left|].
    right. right. right. by exists id.
Qed.

(** A row of the table after one request is either the one that request
    created, under the id the sequence had, or a row that was there before
    with the same id, title, description and createdAt. *)
Lemma dispatch_row_origin now req tb r' :
  r' ∈ rows (dispatch now req tb).2 →
  Todo.id r' = id_seq tb ∨
  ∃ r, r ∈ rows tb ∧ Todo.id r = Todo.id r' ∧ Todo.title r = Todo.title r' ∧
       Todo.description r = Todo.description r' ∧
       Todo.createdAt r = Todo.createdAt r'.
Proof.
  destruct (dispatch_table now req tb)
    as [-> |[(row & Hid & _ & _ & ->)|[(id & row & row' & Hrow & Hrw & ->)|[id ->]]]];
    simpl.
  - intros Hin. right. by exists r'.
  - intros [Hin| ->%list_elem_of_singleton]%elem_of_app; [right|left; done].
    by exists r'.
  - intros (r & -> & Hr)%list_elem_of_fmap. right.
    case_decide; [|by exists r].
    destruct Hrw as (? & ? & ? & ? & _). by exists row.
  - intros [_ Hin]%list_elem_of_filter. right. by exists r'.
Qed.

(** X13.  No route edits a task's title, description or creation time:
    after any run of requests, a row whose id was handed out before the run
    still has the title, the description and the createdAt that the row
    with that id had before the run. *)
Theorem no_request_edits_title_or_description reqs tb r' :
  wf tb → r' ∈ rows (serve reqs tb).2 → Todo.id r' < id_seq tb →
  ∃ r, r ∈ rows tb ∧ Todo.id r = Todo.id r' ∧ Todo.title r = Todo.title r' ∧
       Todo.description r = Todo.description r' ∧
       Todo.createdAt r = Todo.createdAt r'.
Proof.
  revert tb. induction reqs as [|[now req] reqs IH]; intros tb Hwf Hin Hlt.
  { by exists r'. }
  rewrite serve_cons in Hin. cbn [snd] in Hin.
  destruct (dispatch_step now req tb Hwf) as (Hwf1 & Hle & _).
  destruct (IH _ Hwf1 Hin) as (r1 & Hr1 & Hid1 & Ht1 & Hd1 & Hc1); [lia|].
  destruct (dispatch_row_origin now req tb r1 Hr1) as [Hnew|(r & Hr & Hid & Ht & Hd & Hc)].
  - lia.
  - exists r. split_and!; congruence.
Qed.

Lemma no_request_edits_title_or_description_witness :
  ∃ r, r ∈ rows board ∧ Todo.id r = 1 ∧ Todo.title r = "Write spec" ∧
       Todo.description r = None ∧ Todo.createdAt r = 10.
Proof.
  apply (no_request_edits_title_or_description
           [(40, PATCH_todo_move 1 (VObj {[ "status" := VStr "DONE"; "position" := VNum (Int 3) ]}));
            (50, DELETE_todo 2)]
           board (Todo.mk 1 "Write spec" None DONE 3 10 40) board_wf).
  - vm_compute. left.
  - vm_compute. reflexivity.
Defined.

(** ** Timestamps *)

Lemma dispatch_stamped T now req tb :
  stamped_until T tb → T ≤ now → stamped_until now (dispatch now req tb).2.
Proof.
  intros Hst Hle.
  assert (Hst' : stamped_until now tb).
  { eapply Forall_impl; [exact Hst|]. simpl. intros. lia. }
  unfold stamped_until in *.
  destruct (dispatch_table now req tb)
    as [-> |[(row & Hid & Hc & Hu & ->)|[(id & row & row' & Hrow & Hrw & ->)|[id ->]]]];
    simpl.
  - done.
  - apply Forall_app. split; [done|]. apply Forall_singleton. lia.
  - apply Forall_fmap. rewrite Forall_forall in Hst, Hst' |- *. intros r Hr.
    simpl. case_decide; [|by apply Hst'].
    destruct Hrw as (_ & _ & _ & Hc & [-> | Hu]); [by apply Hst'|].
    specialize (Hst row Hrow). lia.
  - rewrite Forall_forall in Hst' |- *. intros r [_ Hr]%list_elem_of_filter.
    by apply Hst'.
Qed.

(** X14.  When the clock does not run backwards, no row is ever marked as
    updated before it was created, nor later than the last request: this
    holds after any run of requests whose instants are in order, on a
    table for which it held at the start. *)
Theorem updatedAt_never_before_createdAt reqs T tb :
  stamped_until T tb → StronglySorted Z.le (T :: reqs.*1) →
  stamped_until (default T (last reqs.*1)) (serve reqs tb).2.
Proof.
  revert T tb. induction reqs as [|[now req] reqs IH]; intros T tb Hst Hs.
  { done. }
  rewrite serve_cons. cbn [snd].
  rewrite fmap_cons in Hs. cbn [fst] in Hs.
  apply StronglySorted_cons in Hs as [Hall Hs].
  apply Forall_cons in Hall as [Hle _].
  specialize (IH now (dispatch now req tb).2
                (dispatch_stamped T now req tb Hst Hle) Hs).
  rewrite fmap_cons, last_cons. cbn [fst].
  by destruct (last reqs.*1).
Qed.

Lemma updatedAt_never_before_createdAt_witness :
  stamped_until 50
    (serve [(40, PATCH_todo_move 1 (VObj {[ "status" := VStr "DONE" ]}));
            (50, POST_todo body_A)] board).2.
Proof.
  apply (updatedAt_never_before_createdAt
           [(40, PATCH_todo_move 1 (VObj {[ "status" := VStr "DONE" ]}));
            (50, POST_todo body_A)] 20 board).
  - repeat constructor; simpl; lia.
  - repeat constructor; simpl; lia.
Defined.

(** ** Listing *)

(** X15.  When no two rows sit on the same position of the same column,
    the listing does not depend on the order in which the table holds its
    rows: two tables with the same rows give the same listing. *)
Theorem findAll_ignores_row_order tb1 tb2 :
  rows tb1 ≡ₚ rows tb2 → slots_distinct (rows tb1) →
  (TodoService.findAll tb1).1 = (TodoService.findAll tb2).1.
Proof.
  intros Hp Hd. simpl. f_equal.
  apply (StronglySorted_unique_strong orderBy_status_position).
  - intros a b Ha Hb Hab Hba.
    rewrite merge_sort_Permutation in Ha, Hb. rewrite <- Hp in Hb.
    apply (Hd a b Ha Hb).
    + destruct Hab as [Hab|[Hab _]]; [|done].
      destruct Hba as [Hba|[Hba _]]; [lia|done].
    + destruct Hab as [Hab|[Hs Hab]], Hba as [Hba|[Hs' Hba]];
        rewrite ?Hs, ?Hs' in *; lia.
  - apply (StronglySorted_merge_sort _).
  - apply (StronglySorted_merge_sort _).
  - by rewrite !merge_sort_Permutation.
Qed.

Lemma findAll_ignores_row_order_witness :
  (TodoService.findAll board).1 = (TodoService.findAll (mkTable [task_B; task_A] 3)).1.
Proof.
  apply (findAll_ignores_row_order board (mkTable [task_B; task_A] 3)).
  - simpl. apply Permutation_swap.
  - intros a b Ha Hb Hs Hpos. simpl in Ha, Hb.
    apply list_elem_of_In in Ha, Hb. simpl in Ha, Hb.
    destruct Ha as [<-|[<-|[]]], Hb as [<-|[<-|[]]]; try reflexivity;
      vm_compute in Hpos; discriminate Hpos.
Defined.

(** ** Responses *)

(** X16.  With the interceptor installed for every route, a request is
    answered in one of two ways: the handler returned, and the response is
    one envelope with [success] true and the handler's result as [data];
    or the handler threw, and the response is that error with no envelope,
    the table being as it was before the request. *)
Theorem response_is_envelope_or_error clock now req tb :
  (∃ r, (dispatch now req tb).1 = Return r ∧
        respond clock now req tb =
          (mkObservable [mkResponse true r (clock 0%nat)] None,
           (dispatch now req tb).2)) ∨
  (∃ e, (dispatch now req tb).1 = Throw e ∧
        respond clock now req tb = (mkObservable [] (Some e), tb)).
Proof.
  unfold respond. destruct (dispatch now req tb) as [[r|e] tb'] eqn:E.
  - left. by exists r.
  - right. exists e. split; [done|].
    by destruct (dispatch_Throw now req tb e tb' E) as [-> _].
Qed.

(** The rows of a column that lies before the column of the first row of a
    sorted list are none. *)
Lemma column_before_empty st a (l : list Todo.t) :
  Forall (orderBy_status_position a) l →
  TaskStatus_rank st < TaskStatus_rank (Todo.status a) →
  column st l = [].
Proof.
  intros Hall Hlt. unfold column. induction Hall as [|b l Hb _ IH]; [done|].
  rewrite filter_cons, decide_False; [done|].
  intros <-. destruct Hb as [Hb|[Hb _]]; [lia|]. rewrite Hb in Hlt. lia.
Qed.

Lemma sorted_is_three_columns (l : list Todo.t) :
  StronglySorted orderBy_status_position l →
  l = column TODO l ++ column IN_PROGRESS l ++ column DONE l.
Proof.
  induction 1 as [|a l Hs IH Hall]; [done|].
  assert (Hbefore : ∀ st, TaskStatus_rank st < TaskStatus_rank (Todo.status a) →
                          column st (a :: l) = []).
  { intros st Hlt. unfold column. rewrite filter_cons, decide_False.
    - by apply (column_before_empty st a l).
    - intros E. rewrite E in Hlt. lia. }
  assert (Hhere : column (Todo.status a) (a :: l) = a :: column (Todo.status a) l).
  { unfold column. by rewrite filter_cons, decide_True. }
  assert (Hafter : ∀ st, st ≠ Todo.status a → column st (a :: l) = column st l).
  { intros st Hne. unfold column. rewrite filter_cons, decide_False; [done|].
    intros E. by apply Hne. }
  assert (Hbefore' : ∀ st, TaskStatus_rank st < TaskStatus_rank (Todo.status a) →
                           column st l = []).
  { intros st Hlt. by apply (column_before_empty st a l). }
  destruct (Todo.status a) eqn:Ea.
  - rewrite Hhere, !Hafter by done. simpl. by rewrite <- IH.
  - rewrite (Hbefore TODO), Hhere, (Hafter DONE) by (done || (simpl; lia)).
    simpl. f_equal. rewrite IH at 1. by rewrite (Hbefore' TODO) by (simpl; lia).
  - rewrite (Hbefore TODO), (Hbefore IN_PROGRESS), Hhere by (simpl; lia).
    simpl. f_equal. rewrite IH at 1.
    by rewrite (Hbefore' TODO), (Hbefore' IN_PROGRESS) by (simpl; lia).
Qed.

Lemma sorted_column_by_position st (l : list Todo.t) :
  StronglySorted orderBy_status_position l →
  StronglySorted (λ a b, Todo.position a ≤ Todo.position b) (column st l).
Proof.
  induction 1 as [|a l Hs IH Hall]; [constructor|].
  unfold column in *. rewrite filter_cons. case_decide as Ha; [|done].
  constructor; [done|].
  apply Forall_forall. intros b [Hb Hin]%list_elem_of_filter.
  rewrite Forall_forall in Hall. destruct (Hall b Hin) as [Hlt|[_ Hle]]; [|done].
  rewrite Ha, Hb in Hlt. lia.
Qed.

(** X17.  A listing is the board read column by column: first the TODO
    rows, then the IN_PROGRESS rows, then the DONE rows, with nothing in
    between; each column holds exactly the rows of the table with that
    status, from the lowest position to the highest. *)
Theorem findAll_is_three_columns tb :
  ∃ found,
    TodoService.findAll tb = (Return found, tb) ∧
    found = column TODO found ++ column IN_PROGRESS found ++ column DONE found ∧
    ∀ st, column st found ≡ₚ column st (rows tb) ∧
          StronglySorted (λ a b, Todo.position a ≤ Todo.position b) (column st found).
Proof.
  eexists. split; [done|].
  assert (Hs : StronglySorted orderBy_status_position
                 (merge_sort orderBy_status_position (rows tb)))
    by apply (StronglySorted_merge_sort _).
  split; [by apply sorted_is_three_columns|].
  intros st. split; [|by apply sorted_column_by_position].
  unfold column. by rewrite merge_sort_Permutation.
Qed.

(** ** Limits of the columns *)

(** X18.  A position that is an integer but no safe integer is turned
    down by the pipe.  A position that is a safe integer but no 32-bit
    integer passes the pipe and fails at the insert with P2020.  Either
    way nothing is stored and no id is drawn. *)
Theorem create_position_out_of_range now o p tb :
  get "position" o = of_int p →
  (¬ safe_integer p →
     TodoController.create now (VObj o) tb = (Throw BadRequestException, tb)) ∧
  (∀ dto, createTodoSchema (VObj o) = Some dto → ¬ int4 p →
     storable (CreateTodoDto.title dto) →
     storable (default EmptyString (CreateTodoDto.description dto)) →
     TodoController.create now (VObj o) tb = (Throw PrismaValueOutOfRange, tb)).
Proof.
  intros Hp. split.
  - intros Hunsafe. apply create_refused.
    destruct (createTodoSchema (VObj o)) as [dto|] eqn:E; [|done].
    apply createTodoSchema_Some in E
      as (o' & q & [= <-] & _ & _ & _ & _ & Hq & _ & _).
    apply position_schema_Some in Hq as [[Hq Hsafe]|[Hq _]].
    + rewrite Hp in Hq. injection Hq as <-. done.
    + rewrite Hp in Hq. discriminate Hq.
  - intros dto Hdto Hout _ _.
    unfold TodoController.create, ZodValidationPipe.transform. rewrite Hdto.
    apply createTodoSchema_Some in Hdto
      as (o' & q & [= <-] & _ & _ & _ & _ & Hq & Hpos & _).
    apply position_schema_Some in Hq as [[Hq _]|[Hq _]];
      rewrite Hp in Hq; [injection Hq as <-|discriminate Hq].
    unfold TodoService.create, prisma.create. simpl. rewrite Hpos. simpl.
    by rewrite decide_False.
Qed.

Lemma create_position_out_of_range_witness :
  TodoController.create 30
    (VObj {[ "title" := VStr "big"; "position" := VNum (Int 9007199254740992) ]}) board
    = (Throw BadRequestException, board) ∧
  TodoController.create 30
    (VObj {[ "title" := VStr "big"; "position" := VNum (Int 2147483648) ]}) board
    = (Throw PrismaValueOutOfRange, board).
Proof.
  split.
  - refine (proj1 (create_position_out_of_range 30
                     {[ "title" := VStr "big"; "position" := VNum (Int 9007199254740992) ]}
                     9007199254740992 board _) _).
    + vm_compute. reflexivity.
    + unfold safe_integer. lia.
  - refine (proj2 (create_position_out_of_range 30
                     {[ "title" := VStr "big"; "position" := VNum (Int 2147483648) ]}
                     2147483648 board _)
                  (CreateTodoDto.mk "big" None None (Some 2147483648)) _ _ _ _).
    + vm_compute. reflexivity.
    + vm_compute. reflexivity.
    + unfold int4. lia.
    + simpl. repeat split; discriminate.
    + exact I.
Defined.



(** ** Other shapes of the move body *)

Lemma rows_replaced_by_itself id (l : list Todo.t) row :
  NoDup (Todo.id <$> l) → row ∈ l → Todo.id row = id →
  (λ r, if decide (prisma.has_id id r) then row else r) <$> l = l.
Proof.
  intros Hnd Hrow Hid. rewrite <- (list_fmap_id l) at 2.
  apply list_fmap_ext. intros k r Hk. simpl. case_decide as Hr; [|done].
  unfold prisma.has_id in Hr.
  apply list_elem_of_lookup in Hrow as [j Hj].
  assert (k = j) as ->; [|congruence].
  apply (NoDup_lookup (Todo.id <$> l) k j id Hnd);
    rewrite list_lookup_fmap; [rewrite Hk|rewrite Hj]; simpl; congruence.
Qed.

(** X20.  The route takes the status as the ORM takes it: the operation
    object [{ set: label }] moves the task exactly as the bare label
    does, although the spec names no such input. *)
Theorem status_set_object_is_the_label now id st p tb :
  TodoController.moveTask now id
    (VObj {[ "status" := VObj {[ "set" := of_status st ]}; "position" := of_int p ]}) tb =
  TodoService.updateStatus now id (of_status st) (of_int p) tb.
Proof.
  unfold TodoController.moveTask, TodoService.updateStatus, prisma.update.
  assert (Hs : prop "status"
            (VObj {[ "status" := VObj {[ "set" := of_status st ]};
                     "position" := of_int p ]}) = VObj {[ "set" := of_status st ]}).
  { unfold prop, get. by rewrite lookup_insert_eq. }
  assert (Hq : prop "position"
            (VObj {[ "status" := VObj {[ "set" := of_status st ]};
                     "position" := of_int p ]}) = of_int p).
  { unfold prop, get. rewrite lookup_insert_ne by done.
    by rewrite lookup_singleton_eq. }
  rewrite Hs, Hq, enum_arg_of_status.
  assert (He : prisma.enum_arg (VObj {[ "set" := of_status st ]}) = Some (Some st)).
  { unfold prisma.enum_arg. rewrite dom_singleton_L, decide_True by done.
    unfold get. rewrite lookup_singleton_eq. simpl.
    by rewrite TaskStatus_of_string_label. }
  by rewrite He.
Qed.

(** X21.  [{ increment: n }] as position moves the task by [n] places
    from where it is, when [n] and the place reached are 32-bit integers;
    the status is set as given and updatedAt is the current instant. *)
Theorem position_increment_adds now id st n tb row :
  wf tb → row ∈ rows tb → Todo.id row = id →
  int4 n → int4 (Todo.position row + n) →
  ∃ tb',
    TodoService.updateStatus now id (of_status st)
      (VObj {[ "increment" := of_int n ]}) tb =
      (Return (Todo.mk id (Todo.title row) (Todo.description row) st
                 (Todo.position row + n) (Todo.createdAt row) now), tb') ∧
    Todo.id <$> rows tb' = Todo.id <$> rows tb.
Proof.
  intros [Hnd Hlt] Hrow Hid Hn Hsum.
  pose proof (update_ids now id (of_status st) (VObj {[ "increment" := of_int n ]}) tb)
    as Hids. revert Hids.
  unfold TodoService.updateStatus, prisma.update.
  rewrite enum_arg_of_status.
  assert (Hi : prisma.int_arg (VObj {[ "increment" := of_int n ]}) =
               Some (Some (prisma.increment n))).
  { unfold prisma.int_arg. rewrite dom_singleton_L.
    rewrite decide_False by (intros H; apply singleton_inj in H; discriminate H).
    rewrite decide_True by done.
    unfold get. by rewrite lookup_singleton_eq. }
  rewrite Hi. rewrite decide_True by done.
  destruct (list_find_has_id_Some id (rows tb) row Hnd Hrow Hid) as [k ->].
  unfold prisma.rewrite_row, prisma.new_value, prisma.fit.
  rewrite decide_True by done. simpl. intros Hids.
  subst id. eexists. split; [reflexivity|exact Hids].
Qed.

Lemma position_increment_adds_witness :
  ∃ tb',
    TodoService.updateStatus 40 2 (of_status TODO)
      (VObj {[ "increment" := of_int 3 ]}) board =
      (Return (Todo.mk 2 (Todo.title task_B) (Todo.description task_B) TODO
                 (Todo.position task_B + 3) (Todo.createdAt task_B) 40), tb') ∧
    Todo.id <$> rows tb' = Todo.id <$> rows board.
Proof.
  apply (position_increment_adds 40 2 TODO 3 board task_B board_wf).
  - simpl. right. left.
  - reflexivity.
  - unfold int4. lia.
  - unfold int4. simpl. lia.
Defined.

(** X22.  A move whose body gives neither field finds the task and hands
    it back untouched: nothing is written, updatedAt included, and no
    other field of the body is looked at, so the route cannot be used to
    edit a title. *)
Theorem move_without_fields_is_a_read now id body tb row :
  wf tb → row ∈ rows tb → Todo.id row = id →
  body ≠ VUndefined → body ≠ VNull →
  prop "status" body = VUndefined → prop "position" body = VUndefined →
  TodoController.moveTask now id body tb = (Return row, tb).
Proof.
  intros [Hnd Hlt] Hrow Hid Hu Hn Hs Hp.
  assert (E : TodoController.moveTask now id body tb =
                prisma.update now id (prop "status" body) (prop "position" body) tb).
  { by destruct body. }
  rewrite E, Hs, Hp. unfold prisma.update. simpl.
  destruct (list_find_has_id_Some id (rows tb) row Hnd Hrow Hid) as [k ->].
  simpl. rewrite (rows_replaced_by_itself id (rows tb) row Hnd Hrow Hid).
  by destruct tb.
Qed.

Lemma move_without_fields_is_a_read_witness :
  TodoController.moveTask 40 1 (VObj {[ "title" := VStr "Renamed" ]}) board =
    (Return task_A, board).
Proof.
  apply (move_without_fields_is_a_read 40 1 (VObj {[ "title" := VStr "Renamed" ]})
           board task_A board_wf task_A_on_board eq_refl);
    (discriminate || (vm_compute; reflexivity)).
Defined.
